(** * Meshtastic MQTT filter: admission, trial decryption and topic rewrite

    A shallow embedding of [mqtt_filter.py] (class [MeshtasticMQTTFilter]):
    the admission check [_check_ok_to_mqtt], the key derivation
    [_derive_key], the trial loop of [_decrypt_packet], the message handler
    [on_message] and the topic rewrite it performs, the key ring of
    [__init__] and the summary of [_print_stats].

    Conventions.
    - A Python [int] is a [Z]; [bytes] is a list of [byte]; a [str] is a
      [string] holding its UTF-8 bytes, so that [s.encode("utf-8")] is the
      list of the bytes of [s].
    - The dict [self.stats] has a fixed set of keys and is the record
      [Stats].
    - A protobuf [oneof] is an inductive type; [HasField] is a match on it.
    - Logging, and with it [_print_stats] and the clock it is paced by,
      is left out, except where evaluating the logged f-string raises.
    - The [client] handed to [on_message] is an argument, with a [publish]
      that returns or raises.
    - The libraries the program calls (hashlib, cryptography, protobuf,
      base64) are interfaces ([Hashlib], [AesCtr], [Protobuf], [Base64]); a
      reference implementation of each is given with the definitions. *)

From Stdlib Require Import ZArith List Bool Lia.
From Stdlib.Strings Require Import String Ascii Byte.
From Stdlib Require Import DecimalString Permutation.
Import ListNotations.

Local Open Scope Z_scope.

(** ** Python values *)

Definition bytes := list byte.

Definition encode_utf8 (s : string) : bytes := list_byte_of_string s.

(** The exceptions the handler can meet. *)
Inductive PyExc : Type :=
| ValueError (msg : string)
| DecodeError
| OverflowError.

Inductive Res (A : Type) : Type :=
| Ok (a : A)
| Raise (e : PyExc).

Arguments Ok {A} a.
Arguments Raise {A} e.

(** ** Strings: [str.rstrip], [str.replace] with [count = 1] *)

Module Str.

Fixpoint mem (c : ascii) (chars : string) : bool :=
  match chars with
  | EmptyString => false
  | String d t => if Ascii.eqb c d then true else mem c t
  end.

(** [s.rstrip(chars)]: drops the longest suffix made of characters of
    [chars]. *)
Fixpoint rstrip (chars s : string) : string :=
  match s with
  | EmptyString => EmptyString
  | String c t =>
      match rstrip chars t with
      | EmptyString => if mem c chars then EmptyString else String c EmptyString
      | t' => String c t'
      end
  end.

Fixpoint drop (n : nat) (s : string) : string :=
  match n, s with
  | O, _ => s
  | S _, EmptyString => EmptyString
  | S m, String _ t => drop m t
  end.

(** [s.replace(old, new, 1)]: the leftmost occurrence of [old] in [s], if
    any, is replaced by [new]; an empty [old] occurs at position 0. *)
Fixpoint replace1 (s old new : string) : string :=
  if prefix old s then new ++ drop (String.length old) s
  else match s with
       | EmptyString => EmptyString
       | String c t => String c (replace1 t old new)
       end.

(** [old in s] *)
Definition occurs (old s : string) : Prop :=
  exists a b : string, s = (a ++ old ++ b)%string.

End Str.

(** ** Wire structures (meshtastic protobufs) *)

Record Data : Type := mkData {
  portnum : Z;
  payload : bytes;
  bitfield : option Z        (* optional uint32: presence is tracked *)
}.

(** [oneof payload_variant] of [MeshPacket]. *)
Inductive PayloadVariant : Type :=
| NotSet
| Decoded (d : Data)
| Encrypted (ciphertext : bytes).

Record MeshPacket : Type := mkMeshPacket {
  from : Z;                  (* fixed32 *)
  to : Z;                    (* fixed32 *)
  channel : Z;
  id : Z;                    (* fixed32 *)
  payload_variant : PayloadVariant
}.

Record ServiceEnvelope : Type := mkServiceEnvelope {
  packet : MeshPacket;
  channel_id : string;
  gateway_id : string
}.

Definition HasField_decoded (p : MeshPacket) : bool :=
  match payload_variant p with Decoded _ => true | _ => false end.

Definition HasField_encrypted (p : MeshPacket) : bool :=
  match payload_variant p with Encrypted _ => true | _ => false end.

(** [packet.encrypted]: the default value when the field is not set. *)
Definition encrypted (p : MeshPacket) : bytes :=
  match payload_variant p with Encrypted c => c | _ => [] end.

Definition set_payload_variant (p : MeshPacket) (v : PayloadVariant) : MeshPacket :=
  {| from := from p; to := to p; channel := channel p; id := id p;
     payload_variant := v |}.

(** A field of wire type fixed32. *)
Definition fixed32 (v : Z) : Prop := 0 <= v < 2 ^ 32.

(** ** Statistics: the dict [self.stats] *)

Record Stats : Type := mkStats {
  total : Z;
  forwarded : Z;
  rejected_encrypted : Z;
  rejected_no_bitfield : Z;
  rejected_bitfield_disabled : Z;
  decrypted : Z;
  decryption_failed : Z
}.

(** [__init__], lines 70-78. *)
Definition initial_stats : Stats := mkStats 0 0 0 0 0 0 0.

Definition incr_total (s : Stats) : Stats :=
  mkStats (total s + 1) (forwarded s) (rejected_encrypted s) (rejected_no_bitfield s)
          (rejected_bitfield_disabled s) (decrypted s) (decryption_failed s).
Definition incr_forwarded (s : Stats) : Stats :=
  mkStats (total s) (forwarded s + 1) (rejected_encrypted s) (rejected_no_bitfield s)
          (rejected_bitfield_disabled s) (decrypted s) (decryption_failed s).
Definition incr_rejected_encrypted (s : Stats) : Stats :=
  mkStats (total s) (forwarded s) (rejected_encrypted s + 1) (rejected_no_bitfield s)
          (rejected_bitfield_disabled s) (decrypted s) (decryption_failed s).
Definition incr_rejected_no_bitfield (s : Stats) : Stats :=
  mkStats (total s) (forwarded s) (rejected_encrypted s) (rejected_no_bitfield s + 1)
          (rejected_bitfield_disabled s) (decrypted s) (decryption_failed s).
Definition incr_rejected_bitfield_disabled (s : Stats) : Stats :=
  mkStats (total s) (forwarded s) (rejected_encrypted s) (rejected_no_bitfield s)
          (rejected_bitfield_disabled s + 1) (decrypted s) (decryption_failed s).
Definition incr_decrypted (s : Stats) : Stats :=
  mkStats (total s) (forwarded s) (rejected_encrypted s) (rejected_no_bitfield s)
          (rejected_bitfield_disabled s) (decrypted s + 1) (decryption_failed s).
Definition incr_decryption_failed (s : Stats) : Stats :=
  mkStats (total s) (forwarded s) (rejected_encrypted s) (rejected_no_bitfield s)
          (rejected_bitfield_disabled s) (decrypted s) (decryption_failed s + 1).

(** The sum of the outcome counters of the dict. *)
Definition outcomes (s : Stats) : Z :=
  forwarded s + rejected_encrypted s + rejected_no_bitfield s
  + rejected_bitfield_disabled s.

(** ** Admission: [_check_ok_to_mqtt], lines 312-339

    Returns the updated counters and the boolean the method returns.  The
    envelope is an argument the method does not read. *)
Definition _check_ok_to_mqtt (st : Stats) (envelope : ServiceEnvelope)
    (packet : MeshPacket) : Stats * bool :=
  match payload_variant packet with
  | Decoded d =>
      match bitfield d with
      | Some b =>
          let is_ok := negb (Z.land b 1 =? 0) in
          if negb is_ok then (incr_rejected_bitfield_disabled st, is_ok)
          else (st, is_ok)
      | None => (incr_rejected_no_bitfield st, false)
      end
  | _ => (incr_rejected_encrypted st, false)
  end.

(** ** The libraries the filter calls *)

(** [hashlib.sha256]: [update(a); update(b); digest()] hashes [a ++ b]. *)
Class Hashlib : Type := {
  sha256 : bytes -> bytes
}.

(** The digest has 32 bytes. *)
Definition Hashlib_spec (H : Hashlib) : Prop :=
  forall m, List.length (sha256 m) = 32%nat.

(** [Cipher(algorithms.AES(key), modes.CTR(nonce))]: [aes_ctr key nonce x]
    is [update(x) + finalize()] for its encryptor and for its decryptor
    (in counter mode both xor [x] with the key stream); the constructors
    raise [ValueError] on a key or nonce of the wrong size. *)
Class AesCtr : Type := {
  aes_ctr : bytes -> bytes -> bytes -> Res bytes
}.

(** Counter mode keeps the length and undoes itself. *)
Record AesCtr_spec (C : AesCtr) : Prop := {
  aes_ctr_length : forall key nonce x y,
      aes_ctr key nonce x = Ok y -> List.length y = List.length x;
  aes_ctr_involutive : forall key nonce x y,
      aes_ctr key nonce x = Ok y -> aes_ctr key nonce y = Ok x
}.

(** The generated protobuf classes: [ParseFromString] on a fresh
    [ServiceEnvelope] and on a fresh [Data], [SerializeToString] of a
    [Data]. *)
Class Protobuf : Type := {
  ParseEnvelope : bytes -> Res ServiceEnvelope;
  ParseData : bytes -> Res Data;
  SerializeData : Data -> bytes
}.

(** No bytes parse to the message with every field at its default. *)
Definition Protobuf_spec (P : Protobuf) : Prop :=
  ParseData [] = Ok (mkData 0 [] None).

(** ** [int.to_bytes(length, byteorder='little')] *)

Definition byte_of_Z (z : Z) : byte :=
  match Byte.of_N (Z.to_N (z mod 256)) with
  | Some b => b
  | None => x00
  end.

Fixpoint le_bytes (n : nat) (v : Z) : bytes :=
  match n with
  | O => []
  | S m => byte_of_Z v :: le_bytes m (v / 256)
  end.

Definition to_bytes_le (n : nat) (v : Z) : Res bytes :=
  if (v <? 0) || (2 ^ (8 * Z.of_nat n) <=? v) then Raise OverflowError
  else Ok (le_bytes n v).

(** ** [int.__format__]: the format specifications of integers

    [[fill]align][sign][#][0][width][grouping][type], nothing after the
    type character. *)
Module Format.

Definition is_align (c : ascii) : bool := Str.mem c "<>=^".
Definition is_digit (c : ascii) : bool := Str.mem c "0123456789".
Definition is_int_type (c : ascii) : bool := Str.mem c "bcdoxXneEfFgG%".

Definition skip_align (s : string) : string :=
  match s with
  | String c (String d t) =>
      if is_align d then t else if is_align c then String d t else s
  | String c EmptyString => if is_align c then EmptyString else s
  | EmptyString => s
  end.

Definition skip_one (chars : string) (s : string) : string :=
  match s with
  | String c t => if Str.mem c chars then t else s
  | EmptyString => s
  end.

Fixpoint skip_digits (s : string) : string :=
  match s with
  | String c t => if is_digit c then skip_digits t else s
  | EmptyString => s
  end.

Definition int_spec_ok (spec : string) : bool :=
  let s := skip_align spec in
  let s := skip_one "+- " s in
  let s := skip_one "#" s in
  let s := skip_one "0" s in
  let s := skip_digits s in
  let s := skip_one ",_" s in
  match s with
  | EmptyString => true
  | String c EmptyString => is_int_type c
  | _ => false
  end.

(** [format(v, spec)] of an int, for its exception only. *)
Definition check_int (spec : string) (v : Z) : Res unit :=
  if int_spec_ok spec then Ok tt
  else Raise (ValueError "Invalid format specifier").

End Format.

(** ** The filter *)

(** A message delivered by the MQTT client. *)
Module Msg.
Record t : Type := mk {
  topic : string;
  payload : bytes
}.
End Msg.

(** The configuration [__init__] stores in [self]. *)
Record Filter : Type := mkFilter {
  keys : list (string * bytes);
  input_topic : string;
  output_topic : string
}.

(** The [client] argument of [on_message]: [publish] returns or raises. *)
Record Client : Type := mkClient {
  publish : string -> bytes -> Res unit
}.

(** What a call of [on_message] changes: the dict [self.stats] and the
    messages [client.publish] has taken, in order. *)
Record World : Type := mkWorld {
  stats : Stats;
  published : list (string * bytes)
}.

(** Truth value of a [str]. *)
Definition truthy (s : string) : bool := negb (String.eqb s "").

Fixpoint str_in (s : string) (l : list string) : bool :=
  match l with
  | [] => false
  | x :: r => if String.eqb s x then true else str_in s r
  end.

Notation "x <- m ;; k" :=
  (match m with
   | Ok x => k
   | Raise e => Raise e
   end) (at level 61, m at next level, right associativity).

Section Engine.

Context {hashlib : Hashlib} {cipher : AesCtr} {protobuf : Protobuf}.

(** [_derive_key], lines 199-223. *)
Definition _derive_key (base_key : bytes) (channel_name : string) : bytes :=
  if truthy channel_name && negb (String.eqb channel_name "") then
    let channel_bytes := encode_utf8 channel_name in
    sha256 (base_key ++ channel_bytes)
  else base_key.

(** Lines 250-257 of [_decrypt_packet]: the key a ring entry decrypts
    with on a channel. *)
Definition effective_key (base_key : bytes) (channel_name : string) : bytes :=
  if truthy channel_name && negb (str_in channel_name ["LongFast"; ""]%string) then
    _derive_key base_key channel_name
  else base_key.

(** Lines 259-263: the nonce. *)
Definition make_nonce (packet_id from_id : Z) : Res bytes :=
  packet_id_bytes <- to_bytes_le 8 packet_id ;;
  sender_id_bytes <- to_bytes_le 8 from_id ;;
  Ok (packet_id_bytes ++ sender_id_bytes).

(** The body of the [try] of the loop, lines 247-300, up to the point
    where the packet is changed: [Ok (Some data)] when the key is
    accepted, [Ok None] for the [continue] of line 267, [Raise] for what
    the [except] of line 302 catches. *)
Definition trial (packet : MeshPacket) (channel_name : string)
    (base_key : bytes) : Res (option Data) :=
  let key := effective_key base_key channel_name in
  nonce <- make_nonce (id packet) (from packet) ;;
  if negb (Nat.eqb (List.length nonce) 16) then Ok None
  else
    decrypted <- aes_ctr key nonce (encrypted packet) ;;
    data <- ParseData decrypted ;;
    if portnum data =? 0 then Raise (ValueError "Invalid portnum")
    else Ok (Some data).

(** The [for] loop of lines 246-310. *)
Fixpoint try_keys (ring : list (string * bytes)) (st : Stats) (packet : MeshPacket)
    (channel_name : string) : Stats * MeshPacket * bool :=
  match ring with
  | [] => (incr_decryption_failed st, packet, false)
  | (key_name, base_key) :: rest =>
      match trial packet channel_name base_key with
      | Ok (Some data) =>
          (incr_decrypted st, set_payload_variant packet (Decoded data), true)
      | _ => try_keys rest st packet channel_name
      end
  end.

(** [_decrypt_packet], lines 225-310. *)
Definition _decrypt_packet (self : Filter) (st : Stats) (packet : MeshPacket)
    (channel_name : string) : Stats * MeshPacket * bool :=
  if negb (HasField_encrypted packet) || Nat.eqb (List.length (encrypted packet)) 0
  then (st, packet, false)
  else try_keys (keys self) st packet channel_name.

(** Line 129: the replacement field
    [{packet.decoded.bitfield:02x if packet.decoded.HasField('bitfield') else 0}]
    formats the bitfield (0 when it is not set) with everything after the
    colon as its format specification. *)
Definition line_129_spec : string :=
  "02x if packet.decoded.HasField('bitfield') else 0".

Definition debug_decoded (packet : MeshPacket) : Res unit :=
  match payload_variant packet with
  | Decoded d =>
      Format.check_int line_129_spec
        (match bitfield d with Some b => b | None => 0 end)
  | _ => Ok tt
  end.

(** The rewrite of line 157. *)
Definition rewrite_topic (self : Filter) (topic : string) : string :=
  Str.replace1 topic (Str.rstrip "/#" (input_topic self))
               (Str.rstrip "/#" (output_topic self)).

(** Lines 133-145 of [on_message]: the attempt at decryption, on the
    counters and the packet. *)
Definition try_decrypt (self : Filter) (st : Stats) (envelope : ServiceEnvelope)
    (packet : MeshPacket) : Stats * MeshPacket :=
  if negb (HasField_decoded packet) && HasField_encrypted packet then
    match keys self with
    | _ :: _ =>
        let channel_name :=
          if truthy (channel_id envelope) then channel_id envelope else ""%string in
        let '(st, packet, _) := _decrypt_packet self st packet channel_name in
        (st, packet)
    | [] => (st, packet)
    end
  else (st, packet).

(** The [try] block of [on_message], lines 105-171: the world when the
    block is left, and how it is left. *)
Definition on_message_try (self : Filter) (client : Client) (w : World) (msg : Msg.t)
    : World * Res unit :=
  let st := incr_total (stats w) in
  match ParseEnvelope (Msg.payload msg) with
  | Raise e => (mkWorld st (published w), Raise e)
  | Ok envelope =>
      let packet := packet envelope in
      match debug_decoded packet with
      | Raise e => (mkWorld st (published w), Raise e)
      | Ok _ =>
          let '(st, packet) := try_decrypt self st envelope packet in
          let '(st, is_ok_to_mqtt) := _check_ok_to_mqtt st envelope packet in
          if is_ok_to_mqtt then
            let st := incr_forwarded st in
            let output_topic := rewrite_topic self (Msg.topic msg) in
            match publish client output_topic (Msg.payload msg) with
            | Raise e => (mkWorld st (published w), Raise e)
            | Ok _ =>
                (mkWorld st (published w ++ [(output_topic, Msg.payload msg)]), Ok tt)
            end
          else (mkWorld st (published w), Ok tt)
      end
  end.

(** [on_message], lines 103-174: the [except] logs and returns. *)
Definition on_message (self : Filter) (client : Client) (w : World) (msg : Msg.t) : World :=
  fst (on_message_try self client w msg).

(** The handler over the messages the client delivers, in order. *)
Definition run (self : Filter) (client : Client) (w : World) (msgs : list Msg.t) : World :=
  fold_left (on_message self client) msgs w.

End Engine.

(** ** Reference implementations of the libraries *)

(** SHA-256 (FIPS 180-4) on 32-bit words held in [N]. *)
Module Sha256.

Local Open Scope N_scope.

Definition w32 (x : N) : N := x mod 4294967296.
Definition add32 (x y : N) : N := w32 (x + y).
Definition rotr (n x : N) : N := N.lor (N.shiftr x n) (w32 (N.shiftl x (32 - n))).
Definition not32 (x : N) : N := N.lxor x 4294967295.

Definition Ch (x y z : N) : N := N.lxor (N.land x y) (N.land (not32 x) z).
Definition Maj (x y z : N) : N :=
  N.lxor (N.lxor (N.land x y) (N.land x z)) (N.land y z).
Definition Sigma0 (x : N) : N := N.lxor (N.lxor (rotr 2 x) (rotr 13 x)) (rotr 22 x).
Definition Sigma1 (x : N) : N := N.lxor (N.lxor (rotr 6 x) (rotr 11 x)) (rotr 25 x).
Definition sigma0 (x : N) : N := N.lxor (N.lxor (rotr 7 x) (rotr 18 x)) (N.shiftr x 3).
Definition sigma1 (x : N) : N := N.lxor (N.lxor (rotr 17 x) (rotr 19 x)) (N.shiftr x 10).

Definition K : list N :=
  [1116352408; 1899447441; 3049323471; 3921009573; 961987163; 1508970993;
   2453635748; 2870763221; 3624381080; 310598401; 607225278; 1426881987;
   1925078388; 2162078206; 2614888103; 3248222580; 3835390401; 4022224774;
   264347078; 604807628; 770255983; 1249150122; 1555081692; 1996064986;
   2554220882; 2821834349; 2952996808; 3210313671; 3336571891; 3584528711;
   113926993; 338241895; 666307205; 773529912; 1294757372; 1396182291;
   1695183700; 1986661051; 2177026350; 2456956037; 2730485921; 2820302411;
   3259730800; 3345764771; 3516065817; 3600352804; 4094571909; 275423344;
   430227734; 506948616; 659060556; 883997877; 958139571; 1322822218;
   1537002063; 1747873779; 1955562222; 2024104815; 2227730452; 2361852424;
   2428436474; 2756734187; 3204031479; 3329325298].

Record state : Type := mkState { a : N; b : N; c : N; d : N; e : N; f : N; g : N; h : N }.

Definition H0 : state :=
  mkState 1779033703 3144134277 1013904242 2773480762
          1359893119 2600822924 528734635 1541459225.

Definition round (s : state) (k w : N) : state :=
  let t1 := add32 (add32 (add32 (add32 (h s) (Sigma1 (e s))) (Ch (e s) (f s) (g s))) k) w in
  let t2 := add32 (Sigma0 (a s)) (Maj (a s) (b s) (c s)) in
  mkState (add32 t1 t2) (a s) (b s) (c s) (add32 (d s) t1) (e s) (f s) (g s).

(** The rounds over a window of the last sixteen words of the schedule. *)
Fixpoint rounds (ks : list N) (win : list N) (s : state) : state :=
  match ks with
  | [] => s
  | k :: ks' =>
      let w := nth 0 win 0 in
      let next :=
        add32 (add32 (add32 (sigma1 (nth 14 win 0)) (nth 9 win 0))
                     (sigma0 (nth 1 win 0))) w in
      rounds ks' (tl win ++ [next]) (round s k w)
  end.

Definition N_of_byte (x : byte) : N := Byte.to_N x.
Definition byte_of_N (x : N) : byte :=
  match Byte.of_N (x mod 256) with Some y => y | None => x00 end.

Fixpoint be_words (l : list byte) : list N :=
  match l with
  | b0 :: b1 :: b2 :: b3 :: r =>
      (N_of_byte b0 * 16777216 + N_of_byte b1 * 65536 + N_of_byte b2 * 256 + N_of_byte b3)
      :: be_words r
  | _ => []
  end.

Definition compress (s : state) (block : list byte) : state :=
  let t := rounds K (be_words block) s in
  mkState (add32 (a s) (a t)) (add32 (b s) (b t)) (add32 (c s) (c t)) (add32 (d s) (d t))
          (add32 (e s) (e t)) (add32 (f s) (f t)) (add32 (g s) (g t)) (add32 (h s) (h t)).

Definition be32 (x : N) : list byte :=
  [byte_of_N (x / 16777216); byte_of_N (x / 65536); byte_of_N (x / 256); byte_of_N x].

Definition pad (m : list byte) : list byte :=
  let len := N.of_nat (List.length m) in
  let zeros := N.to_nat ((119 - len mod 64) mod 64) in
  let bits := len * 8 in
  m ++ [x80] ++ repeat x00 zeros ++ be32 (bits / 4294967296) ++ be32 bits.

Fixpoint blocks (n : nat) (s : state) (l : list byte) : state :=
  match n with
  | O => s
  | S n' => blocks n' (compress s (firstn 64 l)) (skipn 64 l)
  end.

Definition digest (m : list byte) : list byte :=
  let p := pad m in
  let s := blocks (Nat.div (List.length p) 64) H0 p in
  be32 (a s) ++ be32 (b s) ++ be32 (c s) ++ be32 (d s) ++
  be32 (e s) ++ be32 (f s) ++ be32 (g s) ++ be32 (h s).

End Sha256.

(** AES (FIPS 197) for keys of 16, 24 and 32 bytes, and its counter mode
    (NIST SP 800-38A) with the whole 16-byte block as a big-endian
    counter, the way OpenSSL runs it. *)
Module Aes.

Local Open Scope N_scope.

Definition sbox : list N :=
  [99; 124; 119; 123; 242; 107; 111; 197; 48; 1; 103; 43; 254; 215; 171; 118;
   202; 130; 201; 125; 250; 89; 71; 240; 173; 212; 162; 175; 156; 164; 114; 192;
   183; 253; 147; 38; 54; 63; 247; 204; 52; 165; 229; 241; 113; 216; 49; 21;
   4; 199; 35; 195; 24; 150; 5; 154; 7; 18; 128; 226; 235; 39; 178; 117;
   9; 131; 44; 26; 27; 110; 90; 160; 82; 59; 214; 179; 41; 227; 47; 132;
   83; 209; 0; 237; 32; 252; 177; 91; 106; 203; 190; 57; 74; 76; 88; 207;
   208; 239; 170; 251; 67; 77; 51; 133; 69; 249; 2; 127; 80; 60; 159; 168;
   81; 163; 64; 143; 146; 157; 56; 245; 188; 182; 218; 33; 16; 255; 243; 210;
   205; 12; 19; 236; 95; 151; 68; 23; 196; 167; 126; 61; 100; 93; 25; 115;
   96; 129; 79; 220; 34; 42; 144; 136; 70; 238; 184; 20; 222; 94; 11; 219;
   224; 50; 58; 10; 73; 6; 36; 92; 194; 211; 172; 98; 145; 149; 228; 121;
   231; 200; 55; 109; 141; 213; 78; 169; 108; 86; 244; 234; 101; 122; 174; 8;
   186; 120; 37; 46; 28; 166; 180; 198; 232; 221; 116; 31; 75; 189; 139; 138;
   112; 62; 181; 102; 72; 3; 246; 14; 97; 53; 87; 185; 134; 193; 29; 158;
   225; 248; 152; 17; 105; 217; 142; 148; 155; 30; 135; 233; 206; 85; 40; 223;
   140; 161; 137; 13; 191; 230; 66; 104; 65; 153; 45; 15; 176; 84; 187; 22].

Definition sub (x : N) : N := nth (N.to_nat x) sbox 0.

Definition xtime (x : N) : N :=
  N.lxor ((2 * x) mod 256) (if 128 <=? x then 27 else 0).

Fixpoint xor_words (x y : list N) : list N :=
  match x, y with
  | u :: x', v :: y' => N.lxor u v :: xor_words x' y'
  | _, _ => []
  end.

(** Key expansion: the words of the schedule, four bytes each. *)
Fixpoint rcon (i : nat) : N :=
  match i with
  | O => 0
  | S O => 1
  | S j => xtime (rcon j)
  end.

Definition rot_word (w : list N) : list N := tl w ++ firstn 1 w.

Fixpoint expand (fuel : nat) (nk i : nat) (ws : list (list N)) : list (list N) :=
  match fuel with
  | O => ws
  | S fuel' =>
      let prev := nth (i - 1) ws [] in
      let temp :=
        if Nat.eqb (Nat.modulo i nk) 0 then
          xor_words (map sub (rot_word prev)) [rcon (Nat.div i nk); 0; 0; 0]
        else if Nat.ltb 6 nk && Nat.eqb (Nat.modulo i nk) 4 then map sub prev
        else prev in
      expand fuel' nk (S i) (ws ++ [xor_words (nth (i - nk) ws []) temp])
  end.

Fixpoint words (l : list N) : list (list N) :=
  match l with
  | b0 :: b1 :: b2 :: b3 :: r => [b0; b1; b2; b3] :: words r
  | _ => []
  end.

(** The round keys, sixteen bytes each. *)
Fixpoint round_keys (ws : list (list N)) : list (list N) :=
  match ws with
  | w0 :: w1 :: w2 :: w3 :: r => (w0 ++ w1 ++ w2 ++ w3) :: round_keys r
  | _ => []
  end.

Definition key_schedule (key : list N) : list (list N) :=
  let nk := Nat.div (List.length key) 4 in
  round_keys (expand (4 * (nk + 7) - nk) nk nk (words key)).

Definition shift_rows (s : list N) : list N :=
  map (fun i => nth i s 0) [0; 5; 10; 15; 4; 9; 14; 3; 8; 13; 2; 7; 12; 1; 6; 11]%nat.

Definition mix_column (a0 a1 a2 a3 : N) : list N :=
  let x3 v := N.lxor (xtime v) v in
  [N.lxor (N.lxor (xtime a0) (x3 a1)) (N.lxor a2 a3);
   N.lxor (N.lxor a0 (xtime a1)) (N.lxor (x3 a2) a3);
   N.lxor (N.lxor a0 a1) (N.lxor (xtime a2) (x3 a3));
   N.lxor (N.lxor (x3 a0) a1) (N.lxor a2 (xtime a3))].

Fixpoint mix_columns (s : list N) : list N :=
  match s with
  | a0 :: a1 :: a2 :: a3 :: r => mix_column a0 a1 a2 a3 ++ mix_columns r
  | _ => []
  end.

Fixpoint middle_rounds (rks : list (list N)) (s : list N) : list N :=
  match rks with
  | [] => s
  | [last] => xor_words (shift_rows (map sub s)) last
  | rk :: rest =>
      middle_rounds rest (xor_words (mix_columns (shift_rows (map sub s))) rk)
  end.

Definition encrypt_block (rks : list (list N)) (block : list N) : list N :=
  match rks with
  | [] => block
  | rk0 :: rest => middle_rounds rest (xor_words block rk0)
  end.

(** Counter mode. *)
Fixpoint be_value (l : list N) (acc : N) : N :=
  match l with
  | [] => acc
  | x :: r => be_value r (acc * 256 + x)
  end.

Fixpoint be_block (n : nat) (v : N) (acc : list N) : list N :=
  match n with
  | O => acc
  | S m => be_block m (v / 256) (v mod 256 :: acc)
  end.

Definition counter_block (nonce : N) (j : nat) : list N :=
  be_block 16 ((nonce + N.of_nat j) mod 2 ^ 128) [].

Definition keystream (key nonce : list N) (nblocks : nat) : list N :=
  let rks := key_schedule key in
  let n := be_value nonce 0 in
  flat_map (fun j => encrypt_block rks (counter_block n j)) (seq 0 nblocks).

Definition byte_xor (x : byte) (k : N) : byte :=
  match Byte.of_N (N.lxor (Byte.to_N x) (k mod 256)) with
  | Some y => y
  | None => x
  end.

(** The text xored with the key stream, byte by byte. *)
Fixpoint xor_stream (x : list byte) (ks : list N) : list byte :=
  match x with
  | [] => []
  | u :: x' =>
      match ks with
      | k :: ks' => byte_xor u k :: xor_stream x' ks'
      | [] => u :: x'
      end
  end.

Definition valid_key_size (n : nat) : bool :=
  Nat.eqb n 16 || Nat.eqb n 24 || Nat.eqb n 32.

Definition ctr (key nonce x : list byte) : Res (list byte) :=
  if negb (valid_key_size (List.length key)) then
    Raise (ValueError "Invalid key size for AES")
  else if negb (Nat.eqb (List.length nonce) 16) then
    Raise (ValueError "Invalid nonce size for CTR")
  else
    let nblocks := Nat.div (List.length x + 15) 16 in
    Ok (xor_stream x (keystream (map Byte.to_N key) (map Byte.to_N nonce) nblocks)).

End Aes.

(** The protobuf wire format, for the fields of [ServiceEnvelope],
    [MeshPacket] and [Data] that the filter reads: the other fields are
    skipped the way unknown fields are; groups, which the schemas do not
    have, are rejected. *)
Module Wire.

Local Open Scope N_scope.

Inductive value : Type :=
| Varint (v : N)
| Fixed64 (b : bytes)
| LengthDelimited (b : bytes)
| Fixed32 (b : bytes).

(** A base-128 varint of at most ten bytes, kept to 64 bits. *)
Fixpoint read_varint (fuel : nat) (shift acc : N) (l : bytes) : option (N * bytes) :=
  match fuel, l with
  | S fuel', x :: r =>
      let v := Byte.to_N x in
      let acc' := acc + N.shiftl (v mod 128) shift in
      if v <? 128 then Some (acc' mod 2 ^ 64, r)
      else read_varint fuel' (shift + 7) acc' r
  | _, _ => None
  end.

Definition take (n : nat) (l : bytes) : option (bytes * bytes) :=
  if Nat.leb n (List.length l) then Some (firstn n l, skipn n l) else None.

Definition read_field (l : bytes) : option (N * value * bytes) :=
  match read_varint 10 0 0 l with
  | None => None
  | Some (tag, r) =>
      let number := tag / 8 in
      if (number =? 0) || (2 ^ 29 <=? number) then None
      else
        match tag mod 8 with
        | 0 =>
            match read_varint 10 0 0 r with
            | Some (v, r') => Some (number, Varint v, r')
            | None => None
            end
        | 1 =>
            match take 8 r with
            | Some (b, r') => Some (number, Fixed64 b, r')
            | None => None
            end
        | 2 =>
            match read_varint 10 0 0 r with
            | Some (len, r') =>
                match take (N.to_nat len) r' with
                | Some (b, r'') => Some (number, LengthDelimited b, r'')
                | None => None
                end
            | None => None
            end
        | 5 =>
            match take 4 r with
            | Some (b, r') => Some (number, Fixed32 b, r')
            | None => None
            end
        | _ => None
        end
  end.

(** The fields of a message, in order, folded into the message. *)
Fixpoint parse_fields {A : Type} (fuel : nat) (step : A -> N -> value -> Res A)
    (acc : A) (l : bytes) : Res A :=
  match l with
  | [] => Ok acc
  | _ :: _ =>
      match fuel with
      | O => Raise DecodeError
      | S fuel' =>
          match read_field l with
          | None => Raise DecodeError
          | Some (number, v, r) =>
              acc' <- step acc number v ;;
              parse_fields fuel' step acc' r
          end
      end
  end.

Definition parse {A : Type} (step : A -> N -> value -> Res A) (acc : A) (l : bytes) : Res A :=
  parse_fields (List.length l) step acc l.

Fixpoint le_value (l : bytes) : N :=
  match l with
  | [] => 0
  | x :: r => Byte.to_N x + 256 * le_value r
  end.

Definition int32_of (v : N) : Z :=
  let w := Z.of_N (v mod 2 ^ 32) in
  if (w <? 2 ^ 31)%Z then w else (w - 2 ^ 32)%Z.

Definition uint32_of (v : N) : Z := Z.of_N (v mod 2 ^ 32).

(** Well-formed UTF-8, as a proto3 [string] field has to be. *)
Fixpoint continuation (n : nat) (l : list N) : option (list N) :=
  match n with
  | O => Some l
  | S m =>
      match l with
      | x :: r => if (128 <=? x) && (x <? 192) then continuation m r else None
      | [] => None
      end
  end.

Fixpoint utf8 (fuel : nat) (l : list N) : bool :=
  match l with
  | [] => true
  | x :: r =>
      match fuel with
      | O => false
      | S fuel' =>
          let next (lo hi : N) (n : nat) :=
            match r with
            | y :: r' =>
                if (lo <=? y) && (y <=? hi) then
                  match continuation n r' with
                  | Some r'' => utf8 fuel' r''
                  | None => false
                  end
                else false
            | [] => false
            end in
          if x <? 128 then utf8 fuel' r
          else if x <? 194 then false
          else if x <? 224 then next 128 191 0%nat
          else if x =? 224 then next 160 191 1%nat
          else if x =? 237 then next 128 159 1%nat
          else if x <? 240 then next 128 191 1%nat
          else if x =? 240 then next 144 191 2%nat
          else if x <? 244 then next 128 191 2%nat
          else if x =? 244 then next 128 143 2%nat
          else false
      end
  end.

Definition read_string (b : bytes) : Res string :=
  if utf8 (List.length b) (map Byte.to_N b) then Ok (string_of_list_byte b)
  else Raise DecodeError.

(** [Data]: portnum = 1 (enum), payload = 2 (bytes), bitfield = 9
    (optional uint32). *)
Definition data_step (d : Data) (number : N) (v : value) : Res Data :=
  match number, v with
  | 1, Varint x => Ok (mkData (int32_of x) (payload d) (bitfield d))
  | 2, LengthDelimited b => Ok (mkData (portnum d) b (bitfield d))
  | 9, Varint x => Ok (mkData (portnum d) (payload d) (Some (uint32_of x)))
  | _, _ => Ok d
  end.

Definition default_data : Data := mkData 0 [] None.

Definition parse_data (l : bytes) : Res Data := parse data_step default_data l.

(** [MeshPacket]: from = 1, to = 2 (fixed32), channel = 3 (uint32),
    decoded = 4 and encrypted = 5 (oneof payload_variant), id = 6
    (fixed32). *)
Definition packet_step (p : MeshPacket) (number : N) (v : value) : Res MeshPacket :=
  match number, v with
  | 1, Fixed32 b =>
      Ok (mkMeshPacket (Z.of_N (le_value b)) (to p) (channel p) (id p) (payload_variant p))
  | 2, Fixed32 b =>
      Ok (mkMeshPacket (from p) (Z.of_N (le_value b)) (channel p) (id p) (payload_variant p))
  | 3, Varint x =>
      Ok (mkMeshPacket (from p) (to p) (uint32_of x) (id p) (payload_variant p))
  | 4, LengthDelimited b =>
      let d0 := match payload_variant p with Decoded d => d | _ => default_data end in
      d <- parse data_step d0 b ;;
      Ok (set_payload_variant p (Decoded d))
  | 5, LengthDelimited b => Ok (set_payload_variant p (Encrypted b))
  | 6, Fixed32 b =>
      Ok (mkMeshPacket (from p) (to p) (channel p) (Z.of_N (le_value b)) (payload_variant p))
  | _, _ => Ok p
  end.

Definition default_packet : MeshPacket := mkMeshPacket 0 0 0 0 NotSet.

(** [ServiceEnvelope]: packet = 1, channel_id = 2, gateway_id = 3. *)
Definition envelope_step (e : ServiceEnvelope) (number : N) (v : value) : Res ServiceEnvelope :=
  match number, v with
  | 1, LengthDelimited b =>
      p <- parse packet_step (packet e) b ;;
      Ok (mkServiceEnvelope p (channel_id e) (gateway_id e))
  | 2, LengthDelimited b =>
      s <- read_string b ;;
      Ok (mkServiceEnvelope (packet e) s (gateway_id e))
  | 3, LengthDelimited b =>
      s <- read_string b ;;
      Ok (mkServiceEnvelope (packet e) (channel_id e) s)
  | _, _ => Ok e
  end.

Definition default_envelope : ServiceEnvelope :=
  mkServiceEnvelope default_packet "" "".

Definition parse_envelope (l : bytes) : Res ServiceEnvelope :=
  parse envelope_step default_envelope l.

(** Serialization, fields in the order of their numbers; a field at its
    default is left out unless its presence is tracked. *)
Definition byte_of_N (x : N) : byte :=
  match Byte.of_N (x mod 256) with Some y => y | None => x00 end.

Fixpoint varint (fuel : nat) (v : N) : bytes :=
  match fuel with
  | O => []
  | S fuel' =>
      if v <? 128 then [byte_of_N v]
      else byte_of_N (128 + v mod 128) :: varint fuel' (v / 128)
  end.

Definition write_varint (v : N) : bytes := varint 10 (v mod 2 ^ 64).

Definition tag (number wire_type : N) : bytes := write_varint (number * 8 + wire_type).

Definition write_fixed32 (v : Z) : bytes := le_bytes 4 v.

Definition write_bytes (number : N) (b : bytes) : bytes :=
  tag number 2 ++ write_varint (N.of_nat (List.length b)) ++ b.

Definition serialize_data (d : Data) : bytes :=
  (if (portnum d =? 0)%Z then [] else tag 1 0 ++ write_varint (Z.to_N (portnum d mod 2 ^ 64)))
  ++ (match payload d with [] => [] | b => write_bytes 2 b end)
  ++ (match bitfield d with
      | Some x => tag 9 0 ++ write_varint (Z.to_N x)
      | None => []
      end).

Definition serialize_packet (p : MeshPacket) : bytes :=
  (if (from p =? 0)%Z then [] else tag 1 5 ++ write_fixed32 (from p))
  ++ (if (to p =? 0)%Z then [] else tag 2 5 ++ write_fixed32 (to p))
  ++ (if (channel p =? 0)%Z then [] else tag 3 0 ++ write_varint (Z.to_N (channel p)))
  ++ (match payload_variant p with
      | Decoded d => write_bytes 4 (serialize_data d)
      | Encrypted b => write_bytes 5 b
      | NotSet => []
      end)
  ++ (if (id p =? 0)%Z then [] else tag 6 5 ++ write_fixed32 (id p)).

Definition serialize_envelope (e : ServiceEnvelope) : bytes :=
  write_bytes 1 (serialize_packet (packet e))
  ++ (if String.eqb (channel_id e) "" then [] else write_bytes 2 (encode_utf8 (channel_id e)))
  ++ (if String.eqb (gateway_id e) "" then [] else write_bytes 3 (encode_utf8 (gateway_id e))).

End Wire.

(** The libraries as instances of the interfaces. *)
#[export] Instance reference_hashlib : Hashlib := {| sha256 := Sha256.digest |}.
#[export] Instance reference_cipher : AesCtr := {| aes_ctr := Aes.ctr |}.
#[export] Instance reference_protobuf : Protobuf :=
  {| ParseEnvelope := Wire.parse_envelope;
     ParseData := Wire.parse_data;
     SerializeData := Wire.serialize_data |}.

(** The compiled-in key, [base64.b64decode("1PG7OiApB1nwvP+rz05pAQ==")]. *)
Definition DEFAULT_KEY : bytes :=
  [xd4; xf1; xbb; x3a; x20; x29; x07; x59; xf0; xbc; xff; xab; xcf; x4e; x69; x01].

(** ** What the claims speak of *)

Section Trial.

Context {hashlib : Hashlib} {cipher : AesCtr} {protobuf : Protobuf}.

(** A ring entry is accepted on a packet: the output of its decryption
    parses as a [Data] with a nonzero portnum. *)
Definition accepted (packet : MeshPacket) (channel_name : string) (base_key : bytes)
    (data : Data) : Prop :=
  exists nonce decrypted,
    make_nonce (id packet) (from packet) = Ok nonce /\
    aes_ctr (effective_key base_key channel_name) nonce (encrypted packet) = Ok decrypted /\
    ParseData decrypted = Ok data /\
    portnum data <> 0.

Definition rejected (packet : MeshPacket) (channel_name : string) (base_key : bytes) : Prop :=
  forall data, ~ accepted packet channel_name base_key data.

End Trial.

(** One outcome counter of [new] is one more than in [old], the other
    three are the same. *)
Definition one_outcome (old new : Stats) : Prop :=
  (forwarded new = forwarded old + 1 /\
   rejected_encrypted new = rejected_encrypted old /\
   rejected_no_bitfield new = rejected_no_bitfield old /\
   rejected_bitfield_disabled new = rejected_bitfield_disabled old) \/
  (forwarded new = forwarded old /\
   rejected_encrypted new = rejected_encrypted old + 1 /\
   rejected_no_bitfield new = rejected_no_bitfield old /\
   rejected_bitfield_disabled new = rejected_bitfield_disabled old) \/
  (forwarded new = forwarded old /\
   rejected_encrypted new = rejected_encrypted old /\
   rejected_no_bitfield new = rejected_no_bitfield old + 1 /\
   rejected_bitfield_disabled new = rejected_bitfield_disabled old) \/
  (forwarded new = forwarded old /\
   rejected_encrypted new = rejected_encrypted old /\
   rejected_no_bitfield new = rejected_no_bitfield old /\
   rejected_bitfield_disabled new = rejected_bitfield_disabled old + 1).

Definition no_outcome (old new : Stats) : Prop :=
  forwarded new = forwarded old /\
  rejected_encrypted new = rejected_encrypted old /\
  rejected_no_bitfield new = rejected_no_bitfield old /\
  rejected_bitfield_disabled new = rejected_bitfield_disabled old.

(** The leftmost occurrence of [old] in [s] starts after [a] and is
    followed by [b]. *)
Definition first_occurrence (old s a b : string) : Prop :=
  s = (a ++ old ++ b)%string /\
  forall a1 a2 : string,
    a = (a1 ++ a2)%string -> a2 <> ""%string -> prefix old (a2 ++ old ++ b) = false.

(** ** Construction and summary *)

(** [base64.b64decode] of a [str]. *)
Class Base64 : Type := {
  b64decode : string -> Res bytes
}.

(** [base64.b64decode(s)] of a [str], [validate=False]: a character
    outside the alphabet is skipped, padding is looked at only where a
    quantum can end (CPython's [binascii.a2b_base64]). *)
Module B64.

Local Open Scope N_scope.

Definition sextet (c : N) : option N :=
  if (65 <=? c) && (c <=? 90) then Some (c - 65)
  else if (97 <=? c) && (c <=? 122) then Some (c - 71)
  else if (48 <=? c) && (c <=? 57) then Some (c + 4)
  else if c =? 43 then Some 62
  else if c =? 47 then Some 63
  else None.

Definition byte_of_N (x : N) : byte :=
  match Byte.of_N (x mod 256) with Some y => y | None => x00 end.

Fixpoint scan (l : list N) (quad_pos : nat) (leftchar : N) (pads : nat)
    (out : list byte) : Res (list byte) :=
  match l with
  | [] =>
      match quad_pos with
      | O => Ok (rev out)
      | S O => Raise (ValueError "Invalid base64-encoded string")
      | _ => Raise (ValueError "Incorrect padding")
      end
  | c :: r =>
      if c =? 61 then
        if Nat.leb 2 quad_pos then
          if Nat.leb 4 (quad_pos + S pads) then Ok (rev out)
          else scan r quad_pos leftchar (S pads) out
        else scan r quad_pos leftchar pads out
      else
        match sextet c with
        | None => scan r quad_pos leftchar pads out
        | Some v =>
            match quad_pos with
            | O => scan r 1%nat v O out
            | S O => scan r 2%nat (v mod 16) O (byte_of_N (leftchar * 4 + v / 16) :: out)
            | S (S O) => scan r 3%nat (v mod 4) O (byte_of_N (leftchar * 16 + v / 4) :: out)
            | _ => scan r O 0 O (byte_of_N (leftchar * 64 + v) :: out)
            end
        end
  end.

Definition decode (s : string) : Res (list byte) :=
  let l := map Byte.to_N (list_byte_of_string s) in
  if existsb (fun c => 128 <=? c) l then
    Raise (ValueError "string argument should contain only ASCII characters")
  else scan l O 0 O [].

End B64.

#[export] Instance reference_base64 : Base64 := {| b64decode := B64.decode |}.

(** [str(i)] of a natural number. *)
Definition decimal (i : nat) : string := NilEmpty.string_of_uint (Nat.to_uint i).

Section Init.

Context {base64 : Base64}.

(** The loop of lines 61-67 from the index [i] on: a key that does not
    decode is logged and left out. *)
Fixpoint custom_keys (i : nat) (channel_keys : list string) : list (string * bytes) :=
  match channel_keys with
  | [] => []
  | key_b64 :: rest =>
      match b64decode key_b64 with
      | Ok key => (("custom-" ++ decimal i)%string, key) :: custom_keys (S i) rest
      | Raise _ => custom_keys (S i) rest
      end
  end.

(** Lines 55-67: [self.keys]; [channel_keys] is [None] or a list. *)
Definition init_keys (decrypt_default : bool) (channel_keys : option (list string))
    : list (string * bytes) :=
  (if decrypt_default then [("default"%string, DEFAULT_KEY)] else [])
  ++ match channel_keys with
     | Some (key_b64 :: rest) => custom_keys 0 (key_b64 :: rest)
     | _ => []
     end.

(** [__init__], lines 33-87: the configuration and the counters. *)
Definition __init__ (input_topic output_topic : string) (decrypt_default : bool)
    (channel_keys : option (list string)) : Filter * Stats :=
  (mkFilter (init_keys decrypt_default channel_keys) input_topic output_topic,
   initial_stats).

End Init.

(** [_print_stats], lines 176-197: the figures of the summary it logs,
    [None] when it returns without logging.  The two percentages,
    floating-point quotients of these figures, are not in the record. *)
Record Summary : Type := mkSummary {
  summary_total : Z;
  summary_forwarded : Z;
  summary_rejected : Z;
  summary_decryption : option (Z * Z);    (* decrypted, decryption failed *)
  summary_encrypted : Z;
  summary_no_bitfield : Z;
  summary_bitfield_disabled : Z
}.

Definition _print_stats (st : Stats) : option Summary :=
  let total := total st in
  if total =? 0 then None
  else
    let forwarded := forwarded st in
    let rejected := total - forwarded in
    Some (mkSummary total forwarded rejected
            (if 0 <? decrypted st then Some (decrypted st, decryption_failed st) else None)
            (rejected_encrypted st) (rejected_no_bitfield st)
            (rejected_bitfield_disabled st)).

(** A client whose [publish] always returns. *)
Definition publish_returns (client : Client) : Prop :=
  forall topic payload, publish client topic payload = Ok tt.

(** [l] is [m] with some elements left out. *)
Inductive subseq {A : Type} : list A -> list A -> Prop :=
| subseq_nil : subseq [] []
| subseq_skip (x : A) (l m : list A) : subseq l m -> subseq l (x :: m)
| subseq_keep (x : A) (l m : list A) : subseq l m -> subseq (x :: l) (x :: m).

Section Outcome.

Context {hashlib : Hashlib} {cipher : AesCtr} {protobuf : Protobuf}.

(** The packet of an envelope arrives encrypted and an entry of the ring
    is accepted on it with [data]. *)
Definition decrypted_by (self : Filter) (envelope : ServiceEnvelope) (data : Data) : Prop :=
  exists ciphertext key_name base_key,
    payload_variant (packet envelope) = Encrypted ciphertext /\
    ciphertext <> [] /\
    In (key_name, base_key) (keys self) /\
    accepted (packet envelope) (channel_id envelope) base_key data.

(** The ways the [try] block of [on_message] is left, with the world it
    leaves. *)
Inductive outcome (self : Filter) (client : Client) (w : World) (msg : Msg.t)
    : World * Res unit -> Prop :=
| dropped_malformed (e : PyExc) :
    ParseEnvelope (Msg.payload msg) = Raise e ->
    outcome self client w msg (mkWorld (incr_total (stats w)) (published w), Raise e)
| dropped_decoded (envelope : ServiceEnvelope) (d : Data) :
    ParseEnvelope (Msg.payload msg) = Ok envelope ->
    payload_variant (packet envelope) = Decoded d ->
    outcome self client w msg
      (mkWorld (incr_total (stats w)) (published w),
       Raise (ValueError "Invalid format specifier"))
| rejected_undecrypted (envelope : ServiceEnvelope) (st : Stats) :
    ParseEnvelope (Msg.payload msg) = Ok envelope ->
    (forall d, payload_variant (packet envelope) <> Decoded d) ->
    st = incr_total (stats w) \/
    (st = incr_decryption_failed (incr_total (stats w)) /\
     keys self <> [] /\
     (forall n k, In (n, k) (keys self) ->
                  rejected (packet envelope) (channel_id envelope) k)) ->
    outcome self client w msg (mkWorld (incr_rejected_encrypted st) (published w), Ok tt)
| rejected_silent (envelope : ServiceEnvelope) (data : Data) :
    ParseEnvelope (Msg.payload msg) = Ok envelope ->
    decrypted_by self envelope data ->
    bitfield data = None ->
    outcome self client w msg
      (mkWorld (incr_rejected_no_bitfield (incr_decrypted (incr_total (stats w))))
               (published w), Ok tt)
| rejected_disabled (envelope : ServiceEnvelope) (data : Data) (b : Z) :
    ParseEnvelope (Msg.payload msg) = Ok envelope ->
    decrypted_by self envelope data ->
    bitfield data = Some b -> Z.testbit b 0 = false ->
    outcome self client w msg
      (mkWorld (incr_rejected_bitfield_disabled (incr_decrypted (incr_total (stats w))))
               (published w), Ok tt)
| forwarded_published (envelope : ServiceEnvelope) (data : Data) (b : Z) :
    ParseEnvelope (Msg.payload msg) = Ok envelope ->
    decrypted_by self envelope data ->
    bitfield data = Some b -> Z.testbit b 0 = true ->
    publish client (rewrite_topic self (Msg.topic msg)) (Msg.payload msg) = Ok tt ->
    outcome self client w msg
      (mkWorld (incr_forwarded (incr_decrypted (incr_total (stats w))))
               (published w ++ [(rewrite_topic self (Msg.topic msg), Msg.payload msg)]),
       Ok tt)
| forwarded_unpublished (envelope : ServiceEnvelope) (data : Data) (b : Z) (e : PyExc) :
    ParseEnvelope (Msg.payload msg) = Ok envelope ->
    decrypted_by self envelope data ->
    bitfield data = Some b -> Z.testbit b 0 = true ->
    publish client (rewrite_topic self (Msg.topic msg)) (Msg.payload msg) = Raise e ->
    outcome self client w msg
      (mkWorld (incr_forwarded (incr_decrypted (incr_total (stats w)))) (published w),
       Raise e).

End Outcome.

(** Every character of [s] is one of [chars]. *)
Fixpoint all_in (chars s : string) : bool :=
  match s with
  | EmptyString => true
  | String c t => Str.mem c chars && all_in chars t
  end.

(** [algorithms.AES] raises on a key that has not 16, 24 or 32 bytes. *)
Definition AesCtr_key_size (C : AesCtr) : Prop :=
  forall key nonce x,
    Aes.valid_key_size (List.length key) = false ->
    exists e, aes_ctr key nonce x = Raise e.

(** ** Sample values, after the fixtures of the tests *)

(** The custom key of [test_add_custom_keys]. *)
Definition CUSTOM_KEY : bytes := list_byte_of_string "0123456789abcdef".

Definition sample_data : Data := mkData 1 (list_byte_of_string "Test message") (Some 1).

Definition sample_packet (packet_id : Z) (v : PayloadVariant) : MeshPacket :=
  mkMeshPacket 0x12345678 0xFFFFFFFF 0 packet_id v.

(** [sample_data] under [CUSTOM_KEY], packet id 123456. *)
Definition ciphertext_custom : bytes :=
  [xbe; xa1; xb9; x16; x1f; x08; x1f; xea; x78; xc4; xc4; x46; xd5; x5a; xca; x58;
   xdf; xeb].

(** [sample_data] under [DEFAULT_KEY], packet id 123456. *)
Definition ciphertext_default : bytes :=
  [xf6; x56; x49; x8c; xf6; x76; x6e; x89; x58; x99; x49; xf4; x6c; xf7; x52; xb3;
   x49; xac].

(** [sample_data] under [CUSTOM_KEY], packet id 2262. *)
Definition ciphertext_2262 : bytes :=
  [x22; x27; xab; xd9; xa8; x61; x0e; x79; x7e; xcf; x41; x54; xea; x97; x42; x8a;
   x1b; xdd].

Definition nonce_of (packet_id from_id : Z) : bytes :=
  le_bytes 8 packet_id ++ le_bytes 8 from_id.

Definition default_ring : list (string * bytes) := [("default"%string, DEFAULT_KEY)].

Definition two_key_ring : list (string * bytes) :=
  [("default"%string, DEFAULT_KEY); ("custom-0"%string, CUSTOM_KEY)].

Definition sample_filter (ring : list (string * bytes)) : Filter :=
  mkFilter ring "msh/test/#" "filtered/test".

(** An envelope of the channel "LongFast" around a packet, and the
    message that carries it. *)
Definition sample_envelope (packet : MeshPacket) : ServiceEnvelope :=
  mkServiceEnvelope packet "LongFast" "!87654321".

Definition sample_message (packet : MeshPacket) : Msg.t :=
  Msg.mk "msh/test/2/e/LongFast/!12345678"
         (Wire.serialize_envelope (sample_envelope packet)).

(** The message of [test_malformed_protobuf]. *)
Definition malformed_message : Msg.t :=
  Msg.mk "msh/test/invalid" (list_byte_of_string "This is not valid protobuf data").

Definition initial_world : World := mkWorld initial_stats [].

(** The client of the tests, a [Mock]: [publish] returns. *)
Definition mock_client : Client := mkClient (fun _ _ => Ok tt).

Fixpoint has_wildcard (topic : string) : bool :=
  match topic with
  | EmptyString => false
  | String c t => Str.mem c "+#" || has_wildcard t
  end.

(** The client of the service, paho-mqtt's: [publish] raises [ValueError]
    on an empty topic and on a topic with a wildcard. *)
Definition paho_client : Client :=
  mkClient (fun topic _ =>
              if String.eqb topic "" then Raise (ValueError "Invalid topic.")
              else if has_wildcard topic then
                     Raise (ValueError "Publish topic cannot contain wildcards.")
                   else Ok tt).

(** * Properties *)

(** ** The reference implementations on known values *)

Example sha256_abc :
  Sha256.digest (list_byte_of_string "abc")
  = [xba; x78; x16; xbf; x8f; x01; xcf; xea; x41; x41; x40; xde; x5d; xae; x22; x23;
     xb0; x03; x61; xa3; x96; x17; x7a; x9c; xb4; x10; xff; x61; xf2; x00; x15; xad].
Proof. vm_compute. reflexivity. Qed.

(** FIPS 197, appendix C.1. *)
Example aes_128_block :
  Aes.encrypt_block
    (Aes.key_schedule (map N.of_nat (seq 0 16)))
    (map (fun i => N.of_nat (17 * i)) (seq 0 16))
  = [105; 196; 224; 216; 106; 123; 4; 48; 216; 205; 183; 128; 112; 180; 197; 90]%N.
Proof. vm_compute. reflexivity. Qed.

(** FIPS 197, appendix C.3. *)
Example aes_256_block :
  Aes.encrypt_block
    (Aes.key_schedule (map N.of_nat (seq 0 32)))
    (map (fun i => N.of_nat (17 * i)) (seq 0 16))
  = [142; 162; 183; 202; 81; 103; 69; 191; 234; 252; 73; 144; 75; 73; 96; 137]%N.
Proof. vm_compute. reflexivity. Qed.

Example serialize_sample_data :
  SerializeData sample_data
  = [x08; x01; x12; x0c] ++ list_byte_of_string "Test message" ++ [x48; x01].
Proof. vm_compute. reflexivity. Qed.

Example encrypt_sample_custom :
  aes_ctr CUSTOM_KEY (nonce_of 123456 0x12345678) (SerializeData sample_data)
  = Ok ciphertext_custom.
Proof. vm_compute. reflexivity. Qed.

Example encrypt_sample_default :
  aes_ctr DEFAULT_KEY (nonce_of 123456 0x12345678) (SerializeData sample_data)
  = Ok ciphertext_default.
Proof. vm_compute. reflexivity. Qed.

Example encrypt_sample_2262 :
  aes_ctr CUSTOM_KEY (nonce_of 2262 0x12345678) (SerializeData sample_data)
  = Ok ciphertext_2262.
Proof. vm_compute. reflexivity. Qed.

Example malformed_payload :
  ParseEnvelope (list_byte_of_string "This is not valid protobuf data") = Raise DecodeError.
Proof. vm_compute. reflexivity. Qed.

(** ** Strings *)

Module StrFacts.

Import Str.

Lemma replace1_eq (s old new : string) :
  replace1 s old new =
  if prefix old s then (new ++ drop (String.length old) s)%string
  else match s with
       | EmptyString => EmptyString
       | String c t => String c (replace1 t old new)
       end.
Proof. destruct s; reflexivity. Qed.

Lemma prefix_app (p b : string) : prefix p (p ++ b) = true.
Proof.
  induction p as [|c p IH]; simpl.
  - destruct b; reflexivity.
  - destruct (ascii_dec c c) as [_|ne]; [exact IH | congruence].
Qed.

Lemma drop_app (p b : string) : drop (String.length p) (p ++ b) = b.
Proof. induction p as [|c p IH]; simpl; [reflexivity | exact IH]. Qed.

Lemma prefix_split (p s : string) :
  prefix p s = true -> s = (p ++ drop (String.length p) s)%string.
Proof.
  revert s; induction p as [|c p IH]; intros s H; simpl.
  - reflexivity.
  - destruct s as [|d s]; simpl in H; [discriminate|].
    destruct (ascii_dec c d) as [->|ne]; [|discriminate].
    simpl. f_equal. apply IH, H.
Qed.

Lemma replace1_first (old new s a b : string) :
  first_occurrence old s a b -> replace1 s old new = (a ++ new ++ b)%string.
Proof.
  intros [-> Hfirst]. induction a as [|c a IH].
  - simpl. rewrite replace1_eq, prefix_app, drop_app. reflexivity.
  - rewrite replace1_eq.
    rewrite (Hfirst ""%string (String c a) eq_refl) by discriminate.
    simpl. f_equal. apply IH.
    intros a1 a2 -> Hne. apply (Hfirst (String c a1) a2 eq_refl Hne).
Qed.

Lemma replace1_absent (old new s : string) :
  ~ occurs old s -> replace1 s old new = s.
Proof.
  induction s as [|c s IH]; intros Habs; rewrite replace1_eq.
  - destruct (prefix old "") eqn:E; [|reflexivity].
    exfalso. apply Habs. exists ""%string, (drop (String.length old) "").
    apply prefix_split, E.
  - destruct (prefix old (String c s)) eqn:E.
    + exfalso. apply Habs. exists ""%string, (drop (String.length old) (String c s)).
      apply prefix_split, E.
    + f_equal. apply IH. intros (a & b & ->). apply Habs.
      exists (String c a), b. reflexivity.
Qed.

End StrFacts.

(** The two string methods on the values Python gives. *)
Example rstrip_examples :
  Str.rstrip "/#" "msh/US/NY/#" = "msh/US/NY"%string /\
  Str.rstrip "/#" "filtered/msh/US/NY" = "filtered/msh/US/NY"%string /\
  Str.rstrip "/#" "a//##/" = "a"%string /\
  Str.rstrip "/#" "a/#/b" = "a/#/b"%string /\
  Str.rstrip "/#" "#" = ""%string.
Proof. repeat split. Qed.

Example replace1_examples :
  Str.replace1 "aXbXc" "X" "YY" = "aYYbXc"%string /\
  Str.replace1 "abc" "" "X" = "Xabc"%string /\
  Str.replace1 "" "" "X" = "X"%string /\
  Str.replace1 "abc" "d" "X" = "abc"%string.
Proof. repeat split. Qed.

Example format_specs :
  Format.int_spec_ok "08x" = true /\
  Format.int_spec_ok "02x" = true /\
  Format.int_spec_ok line_129_spec = false.
Proof. repeat split. Qed.

(** ** Topic rewrite *)

(** C8, the claim as written, fails: the stripped inbound prefix
    ["msh/US/NY"] is not a prefix of the topic ["x/msh/US/NY/2"], and the
    rewrite changes the topic all the same, at the occurrence inside
    it. *)
Lemma rewrite_topic_inner_occurrence :
  let self := mkFilter [] "msh/US/NY/#" "filtered/msh/US/NY" in
  prefix (Str.rstrip "/#" (input_topic self)) "x/msh/US/NY/2" = false /\
  rewrite_topic self "x/msh/US/NY/2" = "x/filtered/msh/US/NY/2"%string /\
  rewrite_topic self "x/msh/US/NY/2" <> "x/msh/US/NY/2"%string.
Proof. repeat split. discriminate. Qed.

(** C8, amended: the rewrite replaces the leftmost occurrence of the
    wildcard-stripped inbound prefix in the topic, wherever it stands, by
    the wildcard-stripped outbound prefix and keeps what is before and after
    it (so a topic that starts with the prefix gets the outbound prefix in
    its place); the topic of the example is rewritten as the claim says; a
    topic in which the stripped inbound prefix does not occur at all is
    returned unchanged. *)
Theorem rewrite_topic_first_occurrence (self : Filter) :
  let inbound := Str.rstrip "/#" (input_topic self) in
  let outbound := Str.rstrip "/#" (output_topic self) in
  (forall topic a b,
      first_occurrence inbound topic a b ->
      rewrite_topic self topic = (a ++ outbound ++ b)%string) /\
  (forall rest, rewrite_topic self (inbound ++ rest) = (outbound ++ rest)%string) /\
  (forall topic, ~ Str.occurs inbound topic -> rewrite_topic self topic = topic) /\
  rewrite_topic (mkFilter (keys self) "msh/US/NY/#" "filtered/msh/US/NY")
                "msh/US/NY/2/e/LongFast/!12345678"
  = "filtered/msh/US/NY/2/e/LongFast/!12345678"%string.
Proof.
  cbv zeta. unfold rewrite_topic. repeat split.
  - intros topic a b H. apply StrFacts.replace1_first, H.
  - intros rest.
    apply (StrFacts.replace1_first _ _ _ ""%string rest). split; [reflexivity|].
    intros a1 a2 E Hne. destruct a1; simpl in E; [congruence | discriminate].
  - intros topic H. apply StrFacts.replace1_absent, H.
Qed.

Lemma rewrite_topic_first_occurrence_witness :
  let self := mkFilter [] "msh/test/#" "filtered/test" in
  first_occurrence "msh/test" "msh/test/2/e/LongFast/!12345678" "" "/2/e/LongFast/!12345678" /\
  rewrite_topic self "msh/test/2/e/LongFast/!12345678"
  = "filtered/test/2/e/LongFast/!12345678"%string.
Proof.
  assert (H : first_occurrence "msh/test" "msh/test/2/e/LongFast/!12345678" ""
                               "/2/e/LongFast/!12345678").
  { split; [reflexivity|].
    intros a1 a2 E Hne. destruct a1; simpl in E; [congruence | discriminate]. }
  split; [exact H|].
  exact (proj1 (rewrite_topic_first_occurrence (mkFilter [] "msh/test/#" "filtered/test"))
               _ _ _ H).
Defined.

(** ** Admission *)

Lemma land_1_testbit (b : Z) : (Z.land b 1 =? 0) = negb (Z.testbit b 0).
Proof.
  change 1 with (Z.ones 1). rewrite Z.land_ones by lia.
  change (2 ^ 1) with 2. rewrite Zmod_odd, Z.bit0_odd.
  destruct (Z.odd b); reflexivity.
Qed.

(** The verdict does not depend on the sender. *)
Lemma check_ok_to_mqtt_sender (st : Stats) (envelope : ServiceEnvelope)
    (packet : MeshPacket) (sender : Z) :
  _check_ok_to_mqtt st envelope
    (mkMeshPacket sender (to packet) (channel packet) (id packet) (payload_variant packet))
  = _check_ok_to_mqtt st envelope packet.
Proof. reflexivity. Qed.

(** C1: a packet from the node 0x12345678 that carries no decoded data,
    the one the test [test_exempt_node_bypasses_filter] sends for an exempt
    node: the check has no exemption set to consult, rejects the packet as
    encrypted and counts it in [rejected_encrypted]; so it does with a packet
    without decoded data from any sender, and with decoded data whose bit 0
    is clear it rejects the packet of any sender as disabled. *)
Theorem check_ok_to_mqtt_exempt_node_input :
  (let packet := mkMeshPacket 0x12345678 0 0 0 NotSet in
   _check_ok_to_mqtt initial_stats (mkServiceEnvelope packet "" "") packet
   = (mkStats 0 0 1 0 0 0 0, false)) /\
  (forall st envelope sender to channel id,
      _check_ok_to_mqtt st envelope (mkMeshPacket sender to channel id NotSet)
      = (incr_rejected_encrypted st, false)) /\
  (forall st envelope sender to channel id ciphertext,
      _check_ok_to_mqtt st envelope (mkMeshPacket sender to channel id (Encrypted ciphertext))
      = (incr_rejected_encrypted st, false)) /\
  (forall st envelope sender to channel id portnum payload,
      _check_ok_to_mqtt st envelope
        (mkMeshPacket sender to channel id (Decoded (mkData portnum payload (Some 0))))
      = (incr_rejected_bitfield_disabled st, false)).
Proof.
  split; [reflexivity|]. split; [|split]; intros; reflexivity.
Qed.

(** C4: the check, in this order: a packet without decoded data is
    rejected as encrypted; decoded data without a bitfield is rejected for
    the missing bitfield; with a bitfield, the packet is forwarded when bit 0
    is set and rejected as disabled when it is clear.  Each rejection adds
    one to its own counter and to no other. *)
Theorem check_ok_to_mqtt_priority (st : Stats) (envelope : ServiceEnvelope)
    (packet : MeshPacket) :
  (HasField_decoded packet = false ->
   _check_ok_to_mqtt st envelope packet = (incr_rejected_encrypted st, false)) /\
  (forall d, payload_variant packet = Decoded d -> bitfield d = None ->
   _check_ok_to_mqtt st envelope packet = (incr_rejected_no_bitfield st, false)) /\
  (forall d b, payload_variant packet = Decoded d -> bitfield d = Some b ->
   Z.testbit b 0 = true ->
   _check_ok_to_mqtt st envelope packet = (st, true)) /\
  (forall d b, payload_variant packet = Decoded d -> bitfield d = Some b ->
   Z.testbit b 0 = false ->
   _check_ok_to_mqtt st envelope packet = (incr_rejected_bitfield_disabled st, false)).
Proof.
  unfold _check_ok_to_mqtt, HasField_decoded. repeat split.
  - destruct (payload_variant packet); [reflexivity | discriminate | reflexivity].
  - intros d -> ->. reflexivity.
  - intros d b -> -> Hb. rewrite land_1_testbit, Hb. reflexivity.
  - intros d b -> -> Hb. rewrite land_1_testbit, Hb. reflexivity.
Qed.

Lemma check_ok_to_mqtt_priority_witness :
  let encrypted_packet := mkMeshPacket 0x12345678 0 0 0 (Encrypted [x01; x02; x03]) in
  let with_bitfield b := mkMeshPacket 0x12345678 0 0 0 (Decoded (mkData 1 [] b)) in
  let envelope := mkServiceEnvelope encrypted_packet "" "" in
  _check_ok_to_mqtt initial_stats envelope encrypted_packet = (mkStats 0 0 1 0 0 0 0, false) /\
  _check_ok_to_mqtt initial_stats envelope (with_bitfield None) = (mkStats 0 0 0 1 0 0 0, false) /\
  _check_ok_to_mqtt initial_stats envelope (with_bitfield (Some 1)) = (initial_stats, true) /\
  _check_ok_to_mqtt initial_stats envelope (with_bitfield (Some 0)) = (mkStats 0 0 0 0 1 0 0, false).
Proof.
  cbv zeta. split; [|split; [|split]].
  - apply (proj1 (check_ok_to_mqtt_priority initial_stats _ _)). reflexivity.
  - apply (proj1 (proj2 (check_ok_to_mqtt_priority initial_stats _ _)) (mkData 1 [] None));
      reflexivity.
  - apply (proj1 (proj2 (proj2 (check_ok_to_mqtt_priority initial_stats _ _)))
                 (mkData 1 [] (Some 1)) 1); reflexivity.
  - apply (proj2 (proj2 (proj2 (check_ok_to_mqtt_priority initial_stats _ _)))
                 (mkData 1 [] (Some 0)) 0); reflexivity.
Defined.

(** ** Key derivation *)

Lemma sha256_digest_size : Hashlib_spec reference_hashlib.
Proof.
  intros m. unfold sha256, reference_hashlib, Sha256.digest. cbv zeta.
  rewrite !length_app. reflexivity.
Qed.

(** [_derive_key] alone hashes every non-empty name, the reserved one
    too; [_decrypt_packet] calls it under its own guard. *)
Lemma derive_key_nonempty {hashlib : Hashlib} (base_key : bytes) (channel_name : string) :
  channel_name <> ""%string ->
  _derive_key base_key channel_name = sha256 (base_key ++ encode_utf8 channel_name).
Proof.
  intros Hne. unfold _derive_key, truthy.
  destruct (String.eqb_spec channel_name ""); [contradiction | reflexivity].
Qed.

(** C3: the key a ring entry decrypts with is the base key itself when
    the channel name is empty or is "LongFast", and otherwise the SHA-256
    digest, 32 bytes long, of the base key followed by the UTF-8 bytes of
    the channel name.  It is a function of the two: the same arguments give
    the same key. *)
Theorem effective_key_derivation {hashlib : Hashlib} (base_key : bytes)
    (channel_name : string) :
  Hashlib_spec hashlib ->
  (channel_name = ""%string \/ channel_name = "LongFast"%string ->
   effective_key base_key channel_name = base_key) /\
  (channel_name <> ""%string -> channel_name <> "LongFast"%string ->
   effective_key base_key channel_name = sha256 (base_key ++ encode_utf8 channel_name) /\
   List.length (effective_key base_key channel_name) = 32%nat).
Proof.
  intros Hsize. split.
  - intros [-> | ->]; reflexivity.
  - intros Hne Hlf.
    assert (E : effective_key base_key channel_name
                = sha256 (base_key ++ encode_utf8 channel_name)).
    { unfold effective_key, truthy, str_in.
      destruct (String.eqb_spec channel_name ""); [contradiction|].
      destruct (String.eqb_spec channel_name "LongFast"); [contradiction|].
      simpl. apply derive_key_nonempty, Hne. }
    split; [exact E|]. rewrite E. apply Hsize.
Qed.

Lemma effective_key_derivation_witness :
  effective_key DEFAULT_KEY "" = DEFAULT_KEY /\
  effective_key DEFAULT_KEY "LongFast" = DEFAULT_KEY /\
  effective_key DEFAULT_KEY "OtherChannel"
  = sha256 (DEFAULT_KEY ++ encode_utf8 "OtherChannel") /\
  List.length (effective_key DEFAULT_KEY "OtherChannel") = 32%nat.
Proof.
  split; [|split].
  - apply (proj1 (effective_key_derivation DEFAULT_KEY "" sha256_digest_size)).
    left; reflexivity.
  - apply (proj1 (effective_key_derivation DEFAULT_KEY "LongFast" sha256_digest_size)).
    right; reflexivity.
  - apply (proj2 (effective_key_derivation DEFAULT_KEY "OtherChannel" sha256_digest_size));
      discriminate.
Defined.

Example derived_key_other_channel :
  effective_key DEFAULT_KEY "OtherChannel"
  = [x03; x3d; x99; x2f; x6a; x0f; xfe; x9a; x4c; xf6; x4e; x8d; xee; x06; x7b; x2f;
     x79; x4e; x0f; x15; xd8; x88; xaf; x5b; x77; x1c; xeb; xd6; xbd; xcc; xf3; xaa].
Proof. vm_compute. reflexivity. Qed.

(** ** The nonce *)

Lemma le_bytes_length (n : nat) (v : Z) : List.length (le_bytes n v) = n.
Proof. revert v; induction n as [|n IH]; intros v; simpl; [|rewrite IH]; reflexivity. Qed.

Lemma to_bytes_le_length (n : nat) (v : Z) (b : bytes) :
  to_bytes_le n v = Ok b -> List.length b = n.
Proof.
  unfold to_bytes_le. destruct (_ || _); [discriminate|].
  intros [= <-]. apply le_bytes_length.
Qed.

Lemma to_bytes_le_fixed32 (v : Z) : fixed32 v -> to_bytes_le 8 v = Ok (le_bytes 8 v).
Proof.
  intros [Hlo Hhi]. unfold to_bytes_le.
  destruct (Z.ltb_spec v 0); [lia|].
  destruct (Z.leb_spec (2 ^ (8 * Z.of_nat 8)) v) as [Hbig|]; [|reflexivity].
  change (2 ^ (8 * Z.of_nat 8)) with (2 ^ 64) in Hbig.
  assert (2 ^ 32 < 2 ^ 64) by (apply Z.pow_lt_mono_r; lia). lia.
Qed.

(** A 32-bit value on eight bytes: its four bytes, then four zero bytes. *)
Lemma le_bytes_zero_extend (v : Z) :
  fixed32 v -> le_bytes 8 v = le_bytes 4 v ++ [x00; x00; x00; x00].
Proof.
  intros [Hlo Hhi].
  change (le_bytes 8 v)
    with (byte_of_Z v :: byte_of_Z (v / 256) :: byte_of_Z (v / 256 / 256)
          :: byte_of_Z (v / 256 / 256 / 256) :: le_bytes 4 (v / 256 / 256 / 256 / 256)).
  assert (E : v / 256 / 256 / 256 / 256 = 0).
  { rewrite !Z.div_div by lia. apply Z.div_small. change (2 ^ 32) with 4294967296 in Hhi.
    lia. }
  rewrite E. reflexivity.
Qed.

Lemma make_nonce_length (packet_id from_id : Z) (nonce : bytes) :
  make_nonce packet_id from_id = Ok nonce -> List.length nonce = 16%nat.
Proof.
  unfold make_nonce.
  destruct (to_bytes_le 8 packet_id) as [p|] eqn:Ep; [|discriminate].
  destruct (to_bytes_le 8 from_id) as [s|] eqn:Es; [|discriminate].
  intros [= <-]. rewrite length_app.
  rewrite (to_bytes_le_length _ _ _ Ep), (to_bytes_le_length _ _ _ Es). reflexivity.
Qed.

Lemma make_nonce_fixed32 (packet_id from_id : Z) :
  fixed32 packet_id -> fixed32 from_id ->
  make_nonce packet_id from_id
  = Ok ((le_bytes 4 packet_id ++ [x00; x00; x00; x00])
        ++ (le_bytes 4 from_id ++ [x00; x00; x00; x00])).
Proof.
  intros Hp Hf. unfold make_nonce.
  rewrite (to_bytes_le_fixed32 _ Hp), (to_bytes_le_fixed32 _ Hf).
  rewrite (le_bytes_zero_extend _ Hp), (le_bytes_zero_extend _ Hf). reflexivity.
Qed.

(** ** The trial loop *)

Section TrialLoop.

Context {hashlib : Hashlib} {cipher : AesCtr} {protobuf : Protobuf}.

Lemma trial_accepted (packet : MeshPacket) (channel_name : string) (base_key : bytes)
    (data : Data) :
  trial packet channel_name base_key = Ok (Some data)
  <-> accepted packet channel_name base_key data.
Proof.
  unfold trial, accepted. split.
  - destruct (make_nonce (id packet) (from packet)) as [nonce|] eqn:En; [|discriminate].
    rewrite (make_nonce_length _ _ _ En). simpl.
    destruct (aes_ctr _ nonce (encrypted packet)) as [decrypted|] eqn:Ec; [|discriminate].
    destruct (ParseData decrypted) as [d|] eqn:Ed; [|discriminate].
    destruct (Z.eqb_spec (portnum d) 0) as [|Hp]; [discriminate|].
    intros [= <-]. exists nonce, decrypted. auto.
  - intros (nonce & decrypted & En & Ec & Ed & Hp).
    rewrite En, (make_nonce_length _ _ _ En). simpl. rewrite Ec, Ed.
    destruct (Z.eqb_spec (portnum data) 0); [contradiction | reflexivity].
Qed.

Lemma trial_rejected (packet : MeshPacket) (channel_name : string) (base_key : bytes) :
  rejected packet channel_name base_key ->
  forall (ring : list (string * bytes)) (key_name : string) (st : Stats),
    try_keys ((key_name, base_key) :: ring) st packet channel_name
    = try_keys ring st packet channel_name.
Proof.
  intros Hrej ring key_name st. simpl.
  destruct (trial packet channel_name base_key) as [[data|]|] eqn:E; try reflexivity.
  exfalso. apply (Hrej data), trial_accepted, E.
Qed.

(** A parse that succeeds with portnum 0 rejects the key. *)
Lemma portnum_zero_rejected (packet : MeshPacket) (channel_name : string)
    (base_key nonce decrypted : bytes) (data : Data) :
  make_nonce (id packet) (from packet) = Ok nonce ->
  aes_ctr (effective_key base_key channel_name) nonce (encrypted packet) = Ok decrypted ->
  ParseData decrypted = Ok data ->
  portnum data = 0 ->
  rejected packet channel_name base_key.
Proof.
  intros En Ec Ed Hp data' (nonce' & decrypted' & En' & Ec' & Ed' & Hp').
  rewrite En in En'. injection En' as <-.
  rewrite Ec in Ec'. injection Ec' as <-.
  rewrite Ed in Ed'. injection Ed' as <-. contradiction.
Qed.

Lemma try_keys_rejected_prefix (pre ring : list (string * bytes)) (st : Stats)
    (packet : MeshPacket) (channel_name : string) :
  (forall key_name base_key, In (key_name, base_key) pre ->
                             rejected packet channel_name base_key) ->
  try_keys (pre ++ ring) st packet channel_name = try_keys ring st packet channel_name.
Proof.
  induction pre as [|[key_name base_key] pre IH]; intros Hrej; [reflexivity|].
  change (((key_name, base_key) :: pre) ++ ring) with ((key_name, base_key) :: pre ++ ring).
  rewrite trial_rejected by (apply (Hrej key_name); left; reflexivity).
  apply IH. intros n k Hin. apply (Hrej n). right; exact Hin.
Qed.

Lemma decrypt_packet_loop (self : Filter) (st : Stats) (packet : MeshPacket)
    (channel_name : string) (ciphertext : bytes) :
  payload_variant packet = Encrypted ciphertext -> ciphertext <> [] ->
  _decrypt_packet self st packet channel_name
  = try_keys (keys self) st packet channel_name.
Proof.
  intros Hp Hne. unfold _decrypt_packet, HasField_encrypted, encrypted. rewrite Hp.
  destruct ciphertext; [contradiction | reflexivity].
Qed.

Lemma decrypt_packet_accepts (self : Filter) (st : Stats) (packet : MeshPacket)
    (channel_name : string) (ciphertext : bytes) (pre post : list (string * bytes))
    (key_name : string) (base_key : bytes) (data : Data) :
  payload_variant packet = Encrypted ciphertext -> ciphertext <> [] ->
  keys self = pre ++ (key_name, base_key) :: post ->
  (forall n k, In (n, k) pre -> rejected packet channel_name k) ->
  accepted packet channel_name base_key data ->
  _decrypt_packet self st packet channel_name
  = (incr_decrypted st, set_payload_variant packet (Decoded data), true).
Proof.
  intros Hp Hne Hkeys Hrej Hacc.
  rewrite (decrypt_packet_loop _ _ _ _ _ Hp Hne), Hkeys.
  rewrite try_keys_rejected_prefix by exact Hrej. simpl.
  apply trial_accepted in Hacc. rewrite Hacc. reflexivity.
Qed.

(** Called on an empty ring, [_decrypt_packet] counts a failure at
    once; [on_message] does not call it then. *)
Lemma decrypt_packet_empty_ring (self : Filter) (st : Stats) (packet : MeshPacket)
    (channel_name : string) (ciphertext : bytes) :
  payload_variant packet = Encrypted ciphertext -> ciphertext <> [] ->
  keys self = [] ->
  _decrypt_packet self st packet channel_name = (incr_decryption_failed st, packet, false).
Proof.
  intros Hp Hne Hk. rewrite (decrypt_packet_loop _ _ _ _ _ Hp Hne), Hk. reflexivity.
Qed.

End TrialLoop.

(** ** Trial decryption: the outcome of the loop *)

Section Decrypt.

Context {hashlib : Hashlib} {cipher : AesCtr} {protobuf : Protobuf}.

(** C5: on an encrypted packet with a non-empty ciphertext, when the
    ring entries before an entry are all rejected and that entry is accepted
    with [data] (its decrypted output parses as a [Data] with nonzero
    portnum), [_decrypt_packet] returns [True], the packet holds [data] as
    its decoded field and has no encrypted field any more, [decrypted] is one
    more and [decryption_failed] is the same, and the entries after it play
    no part: any other tail of the ring gives the same result.  An entry
    whose decrypted output parses with portnum 0 is passed over like a
    wrong key, and the loop goes on with the next entry. *)
Theorem decrypt_packet_first_accepted (self : Filter) (st : Stats) (packet : MeshPacket)
    (channel_name : string) (ciphertext : bytes) (pre post : list (string * bytes))
    (key_name : string) (base_key : bytes) (data : Data) :
  payload_variant packet = Encrypted ciphertext -> ciphertext <> [] ->
  keys self = pre ++ (key_name, base_key) :: post ->
  (forall n k, In (n, k) pre -> rejected packet channel_name k) ->
  accepted packet channel_name base_key data ->
  let result := _decrypt_packet self st packet channel_name in
  result = (incr_decrypted st, set_payload_variant packet (Decoded data), true) /\
  payload_variant (snd (fst result)) = Decoded data /\
  HasField_encrypted (snd (fst result)) = false /\
  decrypted (fst (fst result)) = decrypted st + 1 /\
  decryption_failed (fst (fst result)) = decryption_failed st /\
  (forall post',
      _decrypt_packet (mkFilter (pre ++ (key_name, base_key) :: post')
                                (input_topic self) (output_topic self))
                      st packet channel_name = result) /\
  (forall ring n k nonce decrypted_bytes d0,
      make_nonce (id packet) (from packet) = Ok nonce ->
      aes_ctr (effective_key k channel_name) nonce (encrypted packet) = Ok decrypted_bytes ->
      ParseData decrypted_bytes = Ok d0 ->
      portnum d0 = 0 ->
      try_keys ((n, k) :: ring) st packet channel_name
      = try_keys ring st packet channel_name).
Proof.
  intros Hp Hne Hkeys Hrej Hacc.
  assert (R : _decrypt_packet self st packet channel_name
              = (incr_decrypted st, set_payload_variant packet (Decoded data), true)).
  { exact (decrypt_packet_accepts _ _ _ _ _ _ _ _ _ _ Hp Hne Hkeys Hrej Hacc). }
  cbv zeta. rewrite R.
  do 5 (split; [reflexivity|]). split.
  - intros post'.
    exact (decrypt_packet_accepts
             (mkFilter (pre ++ (key_name, base_key) :: post') (input_topic self)
                       (output_topic self))
             st packet channel_name ciphertext pre post' key_name base_key data
             Hp Hne eq_refl Hrej Hacc).
  - intros ring n k nonce decrypted_bytes d0 En Ec Ed H0.
    apply trial_rejected. exact (portnum_zero_rejected _ _ _ _ _ _ En Ec Ed H0).
Qed.

(** C6: on an encrypted packet with a non-empty ciphertext, when every
    entry of the ring is rejected (whatever the length of the ring, so for a
    non-empty one), [_decrypt_packet] returns [False], the packet is the one
    it was given, field by field, [decryption_failed] is one more and
    [decrypted] is the same. *)
Theorem decrypt_packet_all_rejected (self : Filter) (st : Stats) (packet : MeshPacket)
    (channel_name : string) (ciphertext : bytes) :
  payload_variant packet = Encrypted ciphertext -> ciphertext <> [] ->
  (forall n k, In (n, k) (keys self) -> rejected packet channel_name k) ->
  let result := _decrypt_packet self st packet channel_name in
  result = (incr_decryption_failed st, packet, false) /\
  snd (fst result) = packet /\
  decryption_failed (fst (fst result)) = decryption_failed st + 1 /\
  decrypted (fst (fst result)) = decrypted st.
Proof.
  intros Hp Hne Hrej.
  assert (R : _decrypt_packet self st packet channel_name
              = (incr_decryption_failed st, packet, false)).
  { rewrite (decrypt_packet_loop _ _ _ _ _ Hp Hne).
    rewrite <- (app_nil_r (keys self)).
    rewrite try_keys_rejected_prefix by exact Hrej. reflexivity. }
  cbv zeta. rewrite R. simpl. do 3 (split; [reflexivity|]). reflexivity.
Qed.

End Decrypt.

(** A ring entry whose trial does not end in an accepted [Data] is
    rejected. *)
Ltac reject_by_trial :=
  let data := fresh "data" in
  let H := fresh "H" in
  intros data H; apply trial_accepted in H; vm_compute in H; discriminate H.

Lemma decrypt_packet_first_accepted_witness :
  let packet := sample_packet 123456 (Encrypted ciphertext_custom) in
  _decrypt_packet (sample_filter two_key_ring) initial_stats packet "LongFast"
  = (mkStats 0 0 0 0 0 1 0, sample_packet 123456 (Decoded sample_data), true).
Proof.
  cbv zeta.
  refine (proj1 (decrypt_packet_first_accepted
                   (sample_filter two_key_ring) initial_stats
                   (sample_packet 123456 (Encrypted ciphertext_custom)) "LongFast"
                   ciphertext_custom [("default"%string, DEFAULT_KEY)] []
                   "custom-0" CUSTOM_KEY sample_data eq_refl _ eq_refl _ _)).
  - discriminate.
  - intros n k [E|[]]. injection E as <- <-. reject_by_trial.
  - apply trial_accepted. vm_compute. reflexivity.
Defined.

Lemma decrypt_packet_all_rejected_witness :
  let packet := sample_packet 123456 (Encrypted ciphertext_custom) in
  _decrypt_packet (sample_filter default_ring) initial_stats packet "LongFast"
  = (mkStats 0 0 0 0 0 0 1, packet, false).
Proof.
  cbv zeta.
  refine (proj1 (decrypt_packet_all_rejected
                   (sample_filter default_ring) initial_stats
                   (sample_packet 123456 (Encrypted ciphertext_custom)) "LongFast"
                   ciphertext_custom eq_refl _ _)).
  - discriminate.
  - intros n k [E|[]]. injection E as <- <-. reject_by_trial.
Defined.

(** ** Counter mode of the reference cipher *)

Lemma lxor_byte_range (a b : N) : (a < 256 -> b < 256 -> N.lxor a b < 256)%N.
Proof.
  intros Ha Hb.
  assert (E : (N.lxor a b mod 2 ^ 8 = N.lxor a b)%N).
  { apply N.bits_inj. intros m. destruct (N.lt_ge_cases m 8) as [Hm|Hm].
    - apply N.mod_pow2_bits_low, Hm.
    - rewrite N.mod_pow2_bits_high by exact Hm.
      rewrite N.lxor_spec.
      rewrite <- (N.mod_small a (2 ^ 8)), <- (N.mod_small b (2 ^ 8)) by assumption.
      rewrite !N.mod_pow2_bits_high by exact Hm. reflexivity. }
  rewrite <- E. apply N.mod_lt. discriminate.
Qed.

Lemma byte_xor_to_N (u : byte) (k : N) :
  Byte.to_N (Aes.byte_xor u k) = N.lxor (Byte.to_N u) (k mod 256)%N.
Proof.
  unfold Aes.byte_xor.
  destruct (Byte.of_N (N.lxor (Byte.to_N u) (k mod 256))) as [y|] eqn:E.
  - apply Byte.to_of_N, E.
  - exfalso. apply Byte.of_N_None_iff in E.
    assert (Byte.to_N u < 256)%N by (pose proof (Byte.to_N_bounded u); lia).
    assert (k mod 256 < 256)%N by (apply N.mod_lt; discriminate).
    pose proof (lxor_byte_range _ _ H H0). lia.
Qed.

Lemma byte_xor_involutive (u : byte) (k : N) : Aes.byte_xor (Aes.byte_xor u k) k = u.
Proof.
  assert (E : Byte.of_N (Byte.to_N (Aes.byte_xor (Aes.byte_xor u k) k)) = Byte.of_N (Byte.to_N u)).
  { f_equal. rewrite !byte_xor_to_N.
    rewrite N.lxor_assoc, N.lxor_nilpotent, N.lxor_0_r. reflexivity. }
  rewrite !Byte.of_to_N in E. injection E as E. exact E.
Qed.

Lemma xor_stream_length (x : list byte) (ks : list N) :
  List.length (Aes.xor_stream x ks) = List.length x.
Proof.
  revert ks; induction x as [|u x IH]; intros ks; [reflexivity|].
  destruct ks as [|k ks]; simpl; [reflexivity|]. rewrite IH. reflexivity.
Qed.

Lemma xor_stream_involutive (x : list byte) (ks : list N) :
  Aes.xor_stream (Aes.xor_stream x ks) ks = x.
Proof.
  revert ks; induction x as [|u x IH]; intros ks; [reflexivity|].
  destruct ks as [|k ks]; simpl; [reflexivity|].
  rewrite byte_xor_involutive, IH. reflexivity.
Qed.

Lemma aes_ctr_reference_spec : AesCtr_spec reference_cipher.
Proof.
  split; intros key nonce x y; unfold aes_ctr, reference_cipher, Aes.ctr;
    destruct (negb (Aes.valid_key_size (List.length key))); try discriminate;
    destruct (negb (Nat.eqb (List.length nonce) 16)); try discriminate;
    intros [= <-].
  - apply xor_stream_length.
  - rewrite xor_stream_length, xor_stream_involutive. reflexivity.
Qed.

Lemma protobuf_reference_spec : Protobuf_spec reference_protobuf.
Proof. reflexivity. Qed.

(** ** Round trip *)

Ltac fixed32_value := unfold fixed32; split; [discriminate | reflexivity].

Lemma make_nonce_nonce_of (packet_id from_id : Z) :
  fixed32 packet_id -> fixed32 from_id ->
  make_nonce packet_id from_id = Ok (nonce_of packet_id from_id).
Proof.
  intros Hp Hf. unfold make_nonce, nonce_of.
  rewrite (to_bytes_le_fixed32 _ Hp), (to_bytes_le_fixed32 _ Hf). reflexivity.
Qed.

(** C7, the claim as written, fails twice over.  (1) The test [Data]
    (portnum 1, payload "Test message", bitfield 1) in a packet with id 2262
    from node 0x12345678 is encrypted with the custom key; the ring holds the
    default key and then that custom key.  The default key, tried first,
    turns the ciphertext into bytes that parse as a [Data] with portnum 97 and
    nothing else: the loop accepts it and the packet is decoded to that.
    (2) The same [Data] encrypted with the default key, ring holding that
    key, on an envelope of channel "OtherChannel": the loop decrypts with the
    SHA-256 derivation of the key and the packet stays encrypted. *)
Lemma decrypt_packet_round_trip_fails :
  (aes_ctr CUSTOM_KEY (nonce_of 2262 0x12345678) (SerializeData sample_data)
   = Ok ciphertext_2262 /\
   In ("custom-0"%string, CUSTOM_KEY) two_key_ring /\
   _decrypt_packet (sample_filter two_key_ring) initial_stats
     (sample_packet 2262 (Encrypted ciphertext_2262)) "LongFast"
   = (mkStats 0 0 0 0 0 1 0, sample_packet 2262 (Decoded (mkData 97 [] None)), true) /\
   mkData 97 [] None <> sample_data) /\
  (aes_ctr DEFAULT_KEY (nonce_of 123456 0x12345678) (SerializeData sample_data)
   = Ok ciphertext_default /\
   In ("default"%string, DEFAULT_KEY) default_ring /\
   _decrypt_packet (sample_filter default_ring) initial_stats
     (sample_packet 123456 (Encrypted ciphertext_default)) "OtherChannel"
   = (mkStats 0 0 0 0 0 0 1, sample_packet 123456 (Encrypted ciphertext_default), false)).
Proof.
  split; (split; [vm_compute; reflexivity|]); (split; [simpl; tauto|]).
  - split; [vm_compute; reflexivity | discriminate].
  - vm_compute; reflexivity.
Qed.

Section RoundTrip.

Context {hashlib : Hashlib} {cipher : AesCtr} {protobuf : Protobuf}.

(** C7, amended: round trip.  For a [Data] with nonzero portnum that the
    parser reads back from its serialization, and a packet whose id and
    sender are 32-bit values: the nonce is the packet id on 8 little-endian
    bytes (its 4 bytes, then 4 zero bytes) followed by the sender address
    likewise, 16 bytes in all; when the serialization is AES-CTR-encrypted
    with a key and that nonce, and the ring has an entry whose key for the
    envelope's channel is that key (the entry's key itself on the channel ""
    or "LongFast", its SHA-256 derivation with the channel name otherwise)
    with every entry before it rejected, [_decrypt_packet] returns [True] and
    leaves the packet decoded to the original [Data]. *)
Theorem decrypt_packet_round_trip (self : Filter) (st : Stats) (packet : MeshPacket)
    (channel_name : string) (data : Data) (key ciphertext : bytes)
    (pre post : list (string * bytes)) (key_name : string) (base_key : bytes) :
  AesCtr_spec cipher -> Protobuf_spec protobuf ->
  portnum data <> 0 ->
  ParseData (SerializeData data) = Ok data ->
  fixed32 (id packet) -> fixed32 (from packet) ->
  aes_ctr key (nonce_of (id packet) (from packet)) (SerializeData data) = Ok ciphertext ->
  payload_variant packet = Encrypted ciphertext ->
  keys self = pre ++ (key_name, base_key) :: post ->
  effective_key base_key channel_name = key ->
  (forall n k, In (n, k) pre -> rejected packet channel_name k) ->
  make_nonce (id packet) (from packet)
  = Ok ((le_bytes 4 (id packet) ++ [x00; x00; x00; x00])
        ++ (le_bytes 4 (from packet) ++ [x00; x00; x00; x00])) /\
  List.length (nonce_of (id packet) (from packet)) = 16%nat /\
  _decrypt_packet self st packet channel_name
  = (incr_decrypted st, set_payload_variant packet (Decoded data), true).
Proof.
  intros Hctr Hpb Hport Hparse Hid Hfrom Henc Hp Hkeys Hkey Hrej.
  split; [apply make_nonce_fixed32; assumption|].
  split; [unfold nonce_of; rewrite length_app, !le_bytes_length; reflexivity|].
  assert (Hct : ciphertext <> []).
  { intros ->. apply (aes_ctr_length _ Hctr) in Henc.
    destruct (SerializeData data) eqn:E; [|discriminate Henc].
    rewrite Hpb in Hparse. injection Hparse as <-. apply Hport. reflexivity. }
  apply (decrypt_packet_accepts _ _ _ _ _ _ _ _ _ _ Hp Hct Hkeys Hrej).
  exists (nonce_of (id packet) (from packet)), (SerializeData data).
  split; [apply make_nonce_nonce_of; assumption|].
  split; [|split; assumption].
  rewrite Hkey. unfold encrypted. rewrite Hp.
  apply (aes_ctr_involutive _ Hctr), Henc.
Qed.

End RoundTrip.

Lemma decrypt_packet_round_trip_witness :
  let packet := sample_packet 123456 (Encrypted ciphertext_default) in
  make_nonce 123456 0x12345678
  = Ok [x40; xe2; x01; x00; x00; x00; x00; x00; x78; x56; x34; x12; x00; x00; x00; x00] /\
  List.length (nonce_of 123456 0x12345678) = 16%nat /\
  _decrypt_packet (sample_filter two_key_ring) initial_stats packet "LongFast"
  = (mkStats 0 0 0 0 0 1 0, sample_packet 123456 (Decoded sample_data), true).
Proof.
  cbv zeta.
  refine (decrypt_packet_round_trip
            (sample_filter two_key_ring) initial_stats
            (sample_packet 123456 (Encrypted ciphertext_default)) "LongFast"
            sample_data DEFAULT_KEY ciphertext_default [] [("custom-0"%string, CUSTOM_KEY)]
            "default" DEFAULT_KEY
            aes_ctr_reference_spec protobuf_reference_spec _ _ _ _ _ eq_refl eq_refl eq_refl _).
  - discriminate.
  - vm_compute. reflexivity.
  - fixed32_value.
  - fixed32_value.
  - vm_compute. reflexivity.
  - intros n k [].
Defined.

(** ** The message handler *)

Section Handler.

Context {hashlib : Hashlib} {cipher : AesCtr} {protobuf : Protobuf}.

(** The counters a trial loop leaves: one more decryption or one more
    failure. *)
Lemma try_keys_stats (ring : list (string * bytes)) (st : Stats) (packet : MeshPacket)
    (channel_name : string) :
  fst (fst (try_keys ring st packet channel_name)) = incr_decrypted st \/
  fst (fst (try_keys ring st packet channel_name)) = incr_decryption_failed st.
Proof.
  induction ring as [|[key_name base_key] ring IH]; simpl.
  - right; reflexivity.
  - destruct (trial packet channel_name base_key) as [[data|]|]; auto.
Qed.

Lemma try_decrypt_stats (self : Filter) (st : Stats) (envelope : ServiceEnvelope)
    (packet : MeshPacket) :
  fst (try_decrypt self st envelope packet) = st \/
  fst (try_decrypt self st envelope packet) = incr_decrypted st \/
  fst (try_decrypt self st envelope packet) = incr_decryption_failed st.
Proof.
  unfold try_decrypt.
  destruct (negb (HasField_decoded packet) && HasField_encrypted packet); [|auto].
  destruct (keys self) as [|entry ring] eqn:Ek; [auto|].
  unfold _decrypt_packet. rewrite Ek.
  destruct (negb (HasField_encrypted packet) || _); [auto|].
  match goal with |- context [try_keys ?r ?s ?p ?c] =>
    pose proof (try_keys_stats r s p c) as H;
    destruct (try_keys r s p c) as [[st' packet'] b] end.
  simpl in *. tauto.
Qed.

(** The check adds one to one rejection counter, or returns [True] and
    leaves the counters. *)
Lemma check_ok_to_mqtt_stats (st : Stats) (envelope : ServiceEnvelope) (packet : MeshPacket) :
  (snd (_check_ok_to_mqtt st envelope packet) = true /\
   fst (_check_ok_to_mqtt st envelope packet) = st) \/
  (snd (_check_ok_to_mqtt st envelope packet) = false /\
   (fst (_check_ok_to_mqtt st envelope packet) = incr_rejected_encrypted st \/
    fst (_check_ok_to_mqtt st envelope packet) = incr_rejected_no_bitfield st \/
    fst (_check_ok_to_mqtt st envelope packet) = incr_rejected_bitfield_disabled st)).
Proof.
  unfold _check_ok_to_mqtt.
  destruct (payload_variant packet) as [|d|c]; simpl; auto.
  destruct (bitfield d) as [b|]; simpl; auto.
  destruct (Z.land b 1 =? 0); simpl; auto.
Qed.

(** An exception before the admission check: only [total] has changed. *)
Lemma on_message_try_early (self : Filter) (client : Client) (w : World) (msg : Msg.t)
    (e : PyExc) :
  ParseEnvelope (Msg.payload msg) = Raise e \/
  (exists envelope, ParseEnvelope (Msg.payload msg) = Ok envelope /\
                    debug_decoded (packet envelope) = Raise e) ->
  on_message_try self client w msg
  = (mkWorld (incr_total (stats w)) (published w), Raise e).
Proof.
  unfold on_message_try. intros [-> | (envelope & -> & ->)]; reflexivity.
Qed.

(** An exception, wherever it is raised: nothing is published and
    [total] is one more; no outcome counter has changed, unless it is
    [publish] that raised, after [forwarded] was incremented. *)
Lemma on_message_try_raise (self : Filter) (client : Client) (w w' : World) (msg : Msg.t)
    (e : PyExc) :
  on_message_try self client w msg = (w', Raise e) ->
  published w' = published w /\
  total (stats w') = total (stats w) + 1 /\
  (no_outcome (stats w) (stats w') \/
   (publish client (rewrite_topic self (Msg.topic msg)) (Msg.payload msg) = Raise e /\
    forwarded (stats w') = forwarded (stats w) + 1 /\
    rejected_encrypted (stats w') = rejected_encrypted (stats w) /\
    rejected_no_bitfield (stats w') = rejected_no_bitfield (stats w) /\
    rejected_bitfield_disabled (stats w') = rejected_bitfield_disabled (stats w))).
Proof.
  unfold on_message_try.
  destruct (ParseEnvelope (Msg.payload msg)) as [envelope|e0];
    [|intros [= <- _]; simpl; unfold no_outcome; simpl; tauto].
  destruct (debug_decoded (packet envelope)) as [u|e0];
    [|intros [= <- _]; simpl; unfold no_outcome; simpl; tauto].
  pose proof (try_decrypt_stats self (incr_total (stats w)) envelope (packet envelope)) as Hd.
  destruct (try_decrypt self _ envelope (packet envelope)) as [st packet'].
  pose proof (check_ok_to_mqtt_stats st envelope packet') as Hc.
  destruct (_check_ok_to_mqtt st envelope packet') as [st' [|]]; [|discriminate].
  destruct (publish client _ _) as [u0|e0] eqn:Ep; [discriminate|].
  intros [= <- <-]. simpl in Hd, Hc.
  destruct Hc as [[_ ->] | [Hc _]]; [|discriminate].
  split; [reflexivity|]. simpl.
  destruct Hd as [-> | [-> | ->]]; simpl; (split; [reflexivity|]); right; tauto.
Qed.

(** When the [try] block runs to its end, [total] and one outcome
    counter have grown by one. *)
Lemma on_message_try_ok (self : Filter) (client : Client) (w w' : World) (msg : Msg.t)
    (u : unit) :
  on_message_try self client w msg = (w', Ok u) ->
  total (stats w') = total (stats w) + 1 /\ one_outcome (stats w) (stats w').
Proof.
  unfold on_message_try.
  destruct (ParseEnvelope (Msg.payload msg)) as [envelope|e0]; [|discriminate].
  destruct (debug_decoded (packet envelope)) as [u0|e0]; [|discriminate].
  pose proof (try_decrypt_stats self (incr_total (stats w)) envelope (packet envelope)) as Hd.
  destruct (try_decrypt self _ envelope (packet envelope)) as [st packet'].
  pose proof (check_ok_to_mqtt_stats st envelope packet') as Hc.
  destruct (_check_ok_to_mqtt st envelope packet') as [st' b].
  simpl in Hd, Hc.
  destruct Hc as [[-> ->] | [-> Hc]];
    [destruct (publish client _ _) as [u0'|e0]; [|discriminate]|];
    intros [= <- _]; simpl;
    unfold one_outcome;
    repeat match goal with
           | H : _ \/ _ |- _ => destruct H
           end; subst; simpl; split; try reflexivity; tauto.
Qed.

Lemma on_message_total (self : Filter) (client : Client) (w : World) (msg : Msg.t) :
  total (stats (on_message self client w msg)) = total (stats w) + 1.
Proof.
  unfold on_message.
  destruct (on_message_try self client w msg) as [w' [u|e]] eqn:E; simpl.
  - apply (on_message_try_ok _ _ _ _ _ _ E).
  - apply (on_message_try_raise _ _ _ _ _ _ E).
Qed.

Lemma on_message_outcomes (self : Filter) (client : Client) (w : World) (msg : Msg.t) :
  outcomes (stats w) <= outcomes (stats (on_message self client w msg))
  <= outcomes (stats w) + 1.
Proof.
  unfold on_message.
  destruct (on_message_try self client w msg) as [w' [u|e]] eqn:E; simpl.
  - destruct (on_message_try_ok _ _ _ _ _ _ E) as [_ H]. unfold one_outcome in H.
    unfold outcomes. lia.
  - destruct (on_message_try_raise _ _ _ _ _ _ E) as (_ & _ & H).
    unfold no_outcome in H. unfold outcomes. lia.
Qed.

Lemma run_counters (self : Filter) (client : Client) (msgs : list Msg.t) (w : World) :
  total (stats (run self client w msgs)) = total (stats w) + Z.of_nat (List.length msgs) /\
  outcomes (stats w) <= outcomes (stats (run self client w msgs))
  <= outcomes (stats w) + Z.of_nat (List.length msgs).
Proof.
  unfold run. revert w. induction msgs as [|msg msgs IH]; intros w.
  - simpl. lia.
  - cbn [fold_left List.length]. destruct (IH (on_message self client w msg)) as [Ht Ho].
    pose proof (on_message_total self client w msg).
    pose proof (on_message_outcomes self client w msg).
    lia.
Qed.

End Handler.

(** C2, the claim as written, fails: after the one message of
    [test_malformed_protobuf], whose payload does not parse, [total] is 1 and
    every outcome counter is 0. *)
Lemma counters_not_conserved :
  let w := run (sample_filter default_ring) mock_client initial_world [malformed_message] in
  total (stats w) = 1 /\ outcomes (stats w) = 0 /\ total (stats w) <> outcomes (stats w).
Proof. vm_compute. repeat split; discriminate. Qed.

(** C9, the claim as written, fails: an encrypted packet with 18 bytes
    of ciphertext arrives at a filter with an empty ring; the message is
    counted in [total] and in [rejected_encrypted], and [decryption_failed]
    stays 0. *)
Lemma empty_ring_counts_no_failure :
  let packet := sample_packet 123456 (Encrypted ciphertext_default) in
  let w := on_message (sample_filter []) mock_client initial_world (sample_message packet) in
  ParseEnvelope (Msg.payload (sample_message packet)) = Ok (sample_envelope packet) /\
  w = mkWorld (mkStats 1 0 1 0 0 0 0) [] /\
  decryption_failed (stats w) <> decryption_failed initial_stats + 1.
Proof. vm_compute. repeat split; discriminate. Qed.

(** C10, the claim as written, fails: a filter whose output topic is
    "filtered/+/test" receives the test [Data] encrypted with the default key.
    The packet is decrypted and admitted, [forwarded] is incremented, and
    then [publish] raises on the wildcard of the rewritten topic: the
    exception is caught, nothing is published, and the message is counted in
    [forwarded]. *)
Lemma publish_raises_after_forwarded :
  let self := mkFilter default_ring "msh/test/#" "filtered/+/test" in
  let msg := sample_message (sample_packet 123456 (Encrypted ciphertext_default)) in
  rewrite_topic self (Msg.topic msg) = "filtered/+/test/2/e/LongFast/!12345678"%string /\
  on_message_try self paho_client initial_world msg
  = (mkWorld (mkStats 1 1 0 0 0 1 0) [],
     Raise (ValueError "Publish topic cannot contain wildcards.")) /\
  forwarded (stats (on_message self paho_client initial_world msg))
  <> forwarded initial_stats.
Proof. vm_compute. repeat split; discriminate. Qed.

Section HandlerClaims.

Context {hashlib : Hashlib} {cipher : AesCtr} {protobuf : Protobuf}.

(** C2, amended: each processed message increments [total] exactly
    once and at most one outcome counter: exactly one of [forwarded],
    [rejected_encrypted], [rejected_no_bitfield], [rejected_bitfield_disabled]
    when the handler runs to its end, at most one when it catches an
    exception.  After any sequence of messages [total] has grown by the
    number of messages and the sum of these outcome counters by at most that
    number, so that from the counters of [__init__] the sum never exceeds
    [total]. *)
Theorem counters_conservation (self : Filter) (client : Client) :
  (forall w msg,
      total (stats (on_message self client w msg)) = total (stats w) + 1 /\
      match snd (on_message_try self client w msg) with
      | Ok _ => one_outcome (stats w) (stats (on_message self client w msg))
      | Raise _ => no_outcome (stats w) (stats (on_message self client w msg)) \/
                   one_outcome (stats w) (stats (on_message self client w msg))
      end) /\
  (forall w msgs,
      total (stats (run self client w msgs))
      = total (stats w) + Z.of_nat (List.length msgs) /\
      outcomes (stats w) <= outcomes (stats (run self client w msgs))
      <= outcomes (stats w) + Z.of_nat (List.length msgs)) /\
  (forall msgs,
      outcomes (stats (run self client initial_world msgs))
      <= total (stats (run self client initial_world msgs))).
Proof.
  split; [|split].
  - intros w msg. split; [apply on_message_total|].
    unfold on_message.
    destruct (on_message_try self client w msg) as [w' [u|e]] eqn:E; simpl.
    + apply (on_message_try_ok _ _ _ _ _ _ E).
    + destruct (on_message_try_raise _ _ _ _ _ _ E) as (_ & _ & [H|H]); [left; exact H|].
      right. left. tauto.
  - intros w msgs. apply run_counters.
  - intros msgs. destruct (run_counters self client msgs initial_world) as [Ht Ho].
    change (total (stats initial_world)) with 0 in Ht.
    change (outcomes (stats initial_world)) with 0 in Ho. lia.
Qed.

(** C9, amended: when an encrypted packet (with a non-empty ciphertext
    or not) arrives and the key ring is empty, decryption is skipped:
    [_decrypt_packet] is not called, the packet handed to the admission check
    is the packet as it arrived, still encrypted, [decryption_failed] and
    [decrypted] are not incremented, and the check rejects the packet as
    encrypted: [rejected_encrypted] is one more and nothing is published. *)
Theorem on_message_empty_ring (self : Filter) (client : Client) (w : World) (msg : Msg.t)
    (envelope : ServiceEnvelope) (ciphertext : bytes) :
  keys self = [] ->
  ParseEnvelope (Msg.payload msg) = Ok envelope ->
  payload_variant (packet envelope) = Encrypted ciphertext ->
  try_decrypt self (incr_total (stats w)) envelope (packet envelope)
  = (incr_total (stats w), packet envelope) /\
  _check_ok_to_mqtt (incr_total (stats w)) envelope (packet envelope)
  = (incr_rejected_encrypted (incr_total (stats w)), false) /\
  on_message self client w msg
  = mkWorld (incr_rejected_encrypted (incr_total (stats w))) (published w) /\
  decryption_failed (stats (on_message self client w msg)) = decryption_failed (stats w) /\
  decrypted (stats (on_message self client w msg)) = decrypted (stats w) /\
  rejected_encrypted (stats (on_message self client w msg))
  = rejected_encrypted (stats w) + 1.
Proof.
  intros Hk Hparse Hp.
  assert (Ed : try_decrypt self (incr_total (stats w)) envelope (packet envelope)
               = (incr_total (stats w), packet envelope)).
  { unfold try_decrypt. rewrite Hk. destruct (_ && _); reflexivity. }
  assert (Ec : _check_ok_to_mqtt (incr_total (stats w)) envelope (packet envelope)
               = (incr_rejected_encrypted (incr_total (stats w)), false)).
  { unfold _check_ok_to_mqtt. rewrite Hp. reflexivity. }
  assert (E : on_message self client w msg
              = mkWorld (incr_rejected_encrypted (incr_total (stats w))) (published w)).
  { unfold on_message, on_message_try. rewrite Hparse.
    unfold debug_decoded. rewrite Hp, Ed, Ec. reflexivity. }
  rewrite E. do 5 (split; [reflexivity || assumption|]). reflexivity.
Qed.

(** C10, amended: the handler is a function of the filter, the client,
    the world and the message: it returns for every message, whatever is
    raised inside.  It increments [total] exactly once, before it
    deserializes: when deserialization raises, [total] is already one more.
    When deserialization or a step before the admission check raises, [total]
    is the only thing that has changed: no outcome counter is incremented and
    nothing is published, so that [total] then exceeds the sum of the outcome
    counters if it was at least that sum.  When any step raises, nothing is
    published; the only step that raises after an outcome counter was
    incremented is [publish], and the counter is [forwarded].  When it is
    [publish] that raises (the envelope was deserialized, the debug log
    returned and the admission check answered [True]), the exception is
    caught with [forwarded] already one more than before the message, the
    rejection counters as they were and nothing published.  These are the
    only steps that raise: an exception comes from deserialization, from the
    debug log of a decoded packet, or from [publish]. *)
Theorem on_message_exception (self : Filter) (client : Client) (w : World) (msg : Msg.t) :
  total (stats (on_message self client w msg)) = total (stats w) + 1 /\
  (forall e,
      ParseEnvelope (Msg.payload msg) = Raise e \/
      (exists envelope, ParseEnvelope (Msg.payload msg) = Ok envelope /\
                        debug_decoded (packet envelope) = Raise e) ->
      on_message_try self client w msg
      = (mkWorld (incr_total (stats w)) (published w), Raise e) /\
      no_outcome (stats w) (stats (on_message self client w msg)) /\
      (outcomes (stats w) <= total (stats w) ->
       outcomes (stats (on_message self client w msg))
       < total (stats (on_message self client w msg)))) /\
  (forall w' e,
      on_message_try self client w msg = (w', Raise e) ->
      on_message self client w msg = w' /\
      published w' = published w /\
      (no_outcome (stats w) (stats w') \/
       (publish client (rewrite_topic self (Msg.topic msg)) (Msg.payload msg) = Raise e /\
        forwarded (stats w') = forwarded (stats w) + 1 /\
        rejected_encrypted (stats w') = rejected_encrypted (stats w) /\
        rejected_no_bitfield (stats w') = rejected_no_bitfield (stats w) /\
        rejected_bitfield_disabled (stats w') = rejected_bitfield_disabled (stats w)))) /\
  (forall envelope e,
      let d := try_decrypt self (incr_total (stats w)) envelope (packet envelope) in
      let c := _check_ok_to_mqtt (fst d) envelope (snd d) in
      ParseEnvelope (Msg.payload msg) = Ok envelope ->
      debug_decoded (packet envelope) = Ok tt ->
      snd c = true ->
      publish client (rewrite_topic self (Msg.topic msg)) (Msg.payload msg) = Raise e ->
      on_message_try self client w msg
      = (mkWorld (incr_forwarded (fst c)) (published w), Raise e) /\
      forwarded (stats (on_message self client w msg)) = forwarded (stats w) + 1 /\
      rejected_encrypted (stats (on_message self client w msg))
      = rejected_encrypted (stats w) /\
      rejected_no_bitfield (stats (on_message self client w msg))
      = rejected_no_bitfield (stats w) /\
      rejected_bitfield_disabled (stats (on_message self client w msg))
      = rejected_bitfield_disabled (stats w) /\
      published (on_message self client w msg) = published w) /\
  (forall w' e,
      on_message_try self client w msg = (w', Raise e) ->
      ParseEnvelope (Msg.payload msg) = Raise e \/
      (exists envelope, ParseEnvelope (Msg.payload msg) = Ok envelope /\
                        debug_decoded (packet envelope) = Raise e) \/
      (exists envelope,
          let d := try_decrypt self (incr_total (stats w)) envelope (packet envelope) in
          ParseEnvelope (Msg.payload msg) = Ok envelope /\
          debug_decoded (packet envelope) = Ok tt /\
          snd (_check_ok_to_mqtt (fst d) envelope (snd d)) = true /\
          publish client (rewrite_topic self (Msg.topic msg)) (Msg.payload msg) = Raise e)).
Proof.
  split; [apply on_message_total|]. split; [|split; [|split]].
  - intros e He. pose proof (on_message_try_early self client w msg e He) as E.
    split; [exact E|]. unfold on_message. rewrite E. simpl.
    split; [repeat split|]. unfold outcomes. simpl. lia.
  - intros w' e E. split; [unfold on_message; rewrite E; reflexivity|].
    destruct (on_message_try_raise _ _ _ _ _ _ E) as (Hpub & _ & H). auto.
  - intros envelope e d c Hparse Hdebug Hc Hp.
    assert (E : on_message_try self client w msg
                = (mkWorld (incr_forwarded (fst c)) (published w), Raise e)).
    { unfold on_message_try. rewrite Hparse, Hdebug.
      subst c d.
      destruct (try_decrypt self (incr_total (stats w)) envelope (packet envelope))
        as [st1 packet1].
      simpl in Hc |- *.
      destruct (_check_ok_to_mqtt st1 envelope packet1) as [st2 b].
      simpl in Hc |- *. rewrite Hc, Hp. reflexivity. }
    split; [exact E|].
    unfold on_message. rewrite E. simpl.
    destruct (check_ok_to_mqtt_stats (fst d) envelope (snd d)) as [[_ Hst] | [Hf _]];
      [|fold c in Hf; rewrite Hc in Hf; discriminate].
    fold c in Hst. rewrite Hst.
    destruct (try_decrypt_stats self (incr_total (stats w)) envelope (packet envelope))
      as [Hd | [Hd | Hd]];
      fold d in Hd; rewrite Hd; simpl; repeat split; reflexivity.
  - intros w' e. unfold on_message_try.
    destruct (ParseEnvelope (Msg.payload msg)) as [envelope|e0];
      [|intros [= _ <-]; left; reflexivity].
    destruct (debug_decoded (packet envelope)) as [[]|e0] eqn:Hdebug;
      [|intros [= _ <-]; right; left; exists envelope; split; [reflexivity|exact Hdebug]].
    intros E. right. right. exists envelope. cbv zeta.
    destruct (try_decrypt self (incr_total (stats w)) envelope (packet envelope))
      as [st1 packet1].
    simpl.
    destruct (_check_ok_to_mqtt st1 envelope packet1) as [st2 [|]]; [|discriminate].
    destruct (publish client _ _) as [u0|e0]; [discriminate|].
    injection E as _ <-. simpl.
    split; [reflexivity|]. split; [exact Hdebug|]. split; reflexivity.
Qed.

End HandlerClaims.

Lemma on_message_empty_ring_witness :
  let packet := sample_packet 123456 (Encrypted ciphertext_default) in
  on_message (sample_filter []) mock_client initial_world (sample_message packet)
  = mkWorld (mkStats 1 0 1 0 0 0 0) [].
Proof.
  cbv zeta.
  refine (proj1 (proj2 (proj2 (on_message_empty_ring
            (sample_filter []) mock_client initial_world
            (sample_message (sample_packet 123456 (Encrypted ciphertext_default)))
            (sample_envelope (sample_packet 123456 (Encrypted ciphertext_default)))
            ciphertext_default eq_refl _ eq_refl)))).
  vm_compute. reflexivity.
Defined.

(** The malformed payload of the tests, a plaintext message, whose
    decoded packet makes line 129 raise, and an admitted packet whose
    rewritten topic has a wildcard, on which [publish] raises. *)
Lemma on_message_exception_witness :
  on_message_try (sample_filter default_ring) mock_client initial_world malformed_message
  = (mkWorld (mkStats 1 0 0 0 0 0 0) [], Raise DecodeError) /\
  on_message_try (sample_filter default_ring) mock_client initial_world
                 (sample_message (sample_packet 123456 (Decoded sample_data)))
  = (mkWorld (mkStats 1 0 0 0 0 0 0) [], Raise (ValueError "Invalid format specifier")) /\
  forwarded (stats (on_message (mkFilter default_ring "msh/test/#" "filtered/+/test")
                               paho_client initial_world
                               (sample_message
                                  (sample_packet 123456 (Encrypted ciphertext_default)))))
  = forwarded (stats initial_world) + 1.
Proof.
  split; [|split].
  - refine (proj1 (proj1 (proj2 (on_message_exception
              (sample_filter default_ring) mock_client initial_world malformed_message))
              DecodeError _)).
    left. vm_compute. reflexivity.
  - refine (proj1 (proj1 (proj2 (on_message_exception
              (sample_filter default_ring) mock_client initial_world
              (sample_message (sample_packet 123456 (Decoded sample_data)))))
              (ValueError "Invalid format specifier") _)).
    right. exists (sample_envelope (sample_packet 123456 (Decoded sample_data))).
    split; vm_compute; reflexivity.
  - refine (proj1 (proj2 (proj1 (proj2 (proj2 (proj2 (on_message_exception
              (mkFilter default_ring "msh/test/#" "filtered/+/test")
              paho_client initial_world
              (sample_message (sample_packet 123456 (Encrypted ciphertext_default)))))))
              (sample_envelope (sample_packet 123456 (Encrypted ciphertext_default)))
              (ValueError "Publish topic cannot contain wildcards.") _ _ _ _)));
      vm_compute; reflexivity.
Defined.

(** * Further properties *)

(** ** The trial loop on every input *)

Section TrialLoopOutcome.

Context {hashlib : Hashlib} {cipher : AesCtr} {protobuf : Protobuf}.

Lemma accepted_portnum (packet : MeshPacket) (channel_name : string) (base_key : bytes)
    (data : Data) :
  accepted packet channel_name base_key data -> portnum data <> 0.
Proof. intros (nonce & decrypted & _ & _ & _ & H). exact H. Qed.

(** What the loop returns, read backwards: [True] comes from the first
    accepted entry, [False] from a ring of rejected entries. *)
Lemma try_keys_outcome (ring : list (string * bytes)) (st : Stats) (packet : MeshPacket)
    (channel_name : string) :
  (exists pre key_name base_key post data,
      ring = pre ++ (key_name, base_key) :: post /\
      (forall n k, In (n, k) pre -> rejected packet channel_name k) /\
      accepted packet channel_name base_key data /\
      try_keys ring st packet channel_name
      = (incr_decrypted st, set_payload_variant packet (Decoded data), true)) \/
  ((forall n k, In (n, k) ring -> rejected packet channel_name k) /\
   try_keys ring st packet channel_name = (incr_decryption_failed st, packet, false)).
Proof.
  induction ring as [|[key_name base_key] ring IH].
  - right. split; [intros n k []|reflexivity].
  - destruct (trial packet channel_name base_key) as [[data|]|e] eqn:E.
    + left. exists [], key_name, base_key, ring, data.
      split; [reflexivity|]. split; [intros n k []|].
      split; [apply trial_accepted, E|]. simpl. rewrite E. reflexivity.
    + assert (Hrej : rejected packet channel_name base_key).
      { intros data H. apply trial_accepted in H. congruence. }
      destruct IH as [(pre & n & k & post & data & -> & Hpre & Hacc & Hres)
                     | [Hall Hres]].
      * left. exists ((key_name, base_key) :: pre), n, k, post, data.
        split; [reflexivity|]. split.
        { intros n' k' [[= <- <-]|Hin]; [exact Hrej | exact (Hpre _ _ Hin)]. }
        split; [exact Hacc|]. simpl. rewrite E. exact Hres.
      * right. split.
        { intros n' k' [[= <- <-]|Hin]; [exact Hrej | exact (Hall _ _ Hin)]. }
        simpl. rewrite E. exact Hres.
    + assert (Hrej : rejected packet channel_name base_key).
      { intros data H. apply trial_accepted in H. congruence. }
      destruct IH as [(pre & n & k & post & data & -> & Hpre & Hacc & Hres)
                     | [Hall Hres]].
      * left. exists ((key_name, base_key) :: pre), n, k, post, data.
        split; [reflexivity|]. split.
        { intros n' k' [[= <- <-]|Hin]; [exact Hrej | exact (Hpre _ _ Hin)]. }
        split; [exact Hacc|]. simpl. rewrite E. exact Hres.
      * right. split.
        { intros n' k' [[= <- <-]|Hin]; [exact Hrej | exact (Hall _ _ Hin)]. }
        simpl. rewrite E. exact Hres.
Qed.

(** X1: whatever the packet and the ring, [_decrypt_packet] keeps the
    sender, the destination, the channel and the id of the packet.  When it
    returns [True], the packet arrived encrypted with a non-empty ciphertext,
    an entry of the ring is accepted on it, the packet now holds that entry's
    [Data], whose portnum is not 0, and [decrypted] alone is one more.  When
    it returns [False] the packet is untouched, and the counters are
    untouched or [decryption_failed] alone is one more. *)
Theorem decrypt_packet_outcome (self : Filter) (st : Stats) (packet : MeshPacket)
    (channel_name : string) :
  let result := _decrypt_packet self st packet channel_name in
  let st' := fst (fst result) in
  let packet' := snd (fst result) in
  (from packet' = from packet /\ to packet' = to packet /\
   channel packet' = channel packet /\ id packet' = id packet) /\
  (snd result = true ->
   exists ciphertext key_name base_key data,
     payload_variant packet = Encrypted ciphertext /\ ciphertext <> [] /\
     In (key_name, base_key) (keys self) /\
     accepted packet channel_name base_key data /\
     payload_variant packet' = Decoded data /\ portnum data <> 0 /\
     st' = incr_decrypted st) /\
  (snd result = false ->
   packet' = packet /\ (st' = st \/ st' = incr_decryption_failed st)).
Proof.
  cbv zeta. unfold _decrypt_packet, HasField_encrypted, encrypted.
  destruct (payload_variant packet) as [|d|ciphertext] eqn:Hp; simpl;
    try (split; [auto|]; split; [discriminate | auto]).
  destruct ciphertext as [|c ciphertext]; simpl;
    [split; [auto|]; split; [discriminate | auto]|].
  destruct (try_keys_outcome (keys self) st packet channel_name)
    as [(pre & n & k & post & data & Hk & Hpre & Hacc & ->) | [Hall ->]]; simpl.
  - split; [auto|]. split; [|discriminate].
    intros _. exists (c :: ciphertext), n, k, data.
    split; [reflexivity|]. split; [discriminate|].
    split; [rewrite Hk; apply in_or_app; right; left; reflexivity|].
    split; [exact Hacc|]. split; [reflexivity|].
    split; [exact (accepted_portnum _ _ _ _ Hacc) | reflexivity].
  - split; [auto|]. split; [discriminate | auto].
Qed.

End TrialLoopOutcome.

Lemma decrypt_packet_outcome_witness :
  exists ciphertext key_name base_key data,
    payload_variant (sample_packet 123456 (Encrypted ciphertext_custom))
    = Encrypted ciphertext /\ ciphertext <> [] /\
    In (key_name, base_key) (keys (sample_filter two_key_ring)) /\
    accepted (sample_packet 123456 (Encrypted ciphertext_custom)) "LongFast" base_key data /\
    payload_variant
      (snd (fst (_decrypt_packet (sample_filter two_key_ring) initial_stats
                   (sample_packet 123456 (Encrypted ciphertext_custom)) "LongFast")))
    = Decoded data /\ portnum data <> 0 /\
    fst (fst (_decrypt_packet (sample_filter two_key_ring) initial_stats
                (sample_packet 123456 (Encrypted ciphertext_custom)) "LongFast"))
    = incr_decrypted initial_stats.
Proof.
  apply (proj1 (proj2 (decrypt_packet_outcome
                         (sample_filter two_key_ring) initial_stats
                         (sample_packet 123456 (Encrypted ciphertext_custom)) "LongFast"))).
  vm_compute. reflexivity.
Defined.

(** ** The handler on every message *)

Section HandlerOutcome.

Context {hashlib : Hashlib} {cipher : AesCtr} {protobuf : Protobuf}.

Lemma channel_name_default (channel_id : string) :
  (if truthy channel_id then channel_id else ""%string) = channel_id.
Proof. unfold truthy. destruct (String.eqb_spec channel_id ""); subst; reflexivity. Qed.

Lemma debug_decoded_raises (packet : MeshPacket) (d : Data) :
  payload_variant packet = Decoded d ->
  debug_decoded packet = Raise (ValueError "Invalid format specifier").
Proof. unfold debug_decoded. intros ->. reflexivity. Qed.

Lemma debug_decoded_returns (packet : MeshPacket) :
  (forall d, payload_variant packet <> Decoded d) -> debug_decoded packet = Ok tt.
Proof.
  unfold debug_decoded. intros H.
  destruct (payload_variant packet) as [|d|c]; [reflexivity | | reflexivity].
  exfalso. exact (H d eq_refl).
Qed.

Lemma try_decrypt_outcome (self : Filter) (st : Stats) (envelope : ServiceEnvelope) :
  (forall d, payload_variant (packet envelope) <> Decoded d) ->
  try_decrypt self st envelope (packet envelope) = (st, packet envelope) \/
  (try_decrypt self st envelope (packet envelope)
   = (incr_decryption_failed st, packet envelope) /\
   keys self <> [] /\
   (forall n k, In (n, k) (keys self) ->
                rejected (packet envelope) (channel_id envelope) k)) \/
  (exists data,
      decrypted_by self envelope data /\
      try_decrypt self st envelope (packet envelope)
      = (incr_decrypted st, set_payload_variant (packet envelope) (Decoded data))).
Proof.
  intros Hnd. unfold try_decrypt, HasField_decoded, HasField_encrypted.
  destruct (payload_variant (packet envelope)) as [|d|ciphertext] eqn:Hp;
    [left; reflexivity | exfalso; exact (Hnd d eq_refl) |].
  simpl. destruct (keys self) as [|entry ring] eqn:Hk; [left; reflexivity|].
  rewrite channel_name_default.
  unfold _decrypt_packet, HasField_encrypted, encrypted. rewrite Hp, Hk.
  destruct ciphertext as [|c ciphertext]; [left; reflexivity|]. simpl negb. simpl orb.
  cbv iota.
  destruct (try_keys_outcome (entry :: ring) st (packet envelope) (channel_id envelope))
    as [(pre & n & k & post & data & Hr & Hpre & Hacc & ->) | [Hall ->]].
  - right. right. exists data. split; [|reflexivity].
    exists (c :: ciphertext), n, k.
    split; [exact Hp|]. split; [discriminate|].
    split; [rewrite Hk, Hr; apply in_or_app; right; left; reflexivity | exact Hacc].
  - right. left. split; [reflexivity|]. split; [discriminate | exact Hall].
Qed.

(** Every call of the handler leaves its [try] block in one of the seven
    ways of [outcome]. *)
Lemma on_message_try_outcome (self : Filter) (client : Client) (w : World) (msg : Msg.t) :
  outcome self client w msg (on_message_try self client w msg).
Proof.
  unfold on_message_try.
  destruct (ParseEnvelope (Msg.payload msg)) as [envelope|e] eqn:Hparse;
    [|apply dropped_malformed; exact Hparse].
  destruct (payload_variant (packet envelope)) as [|d|ciphertext] eqn:Hp.
  2: { rewrite (debug_decoded_raises _ _ Hp).
       exact (dropped_decoded _ _ _ _ envelope d Hparse Hp). }
  all: assert (Hnd : forall d, payload_variant (packet envelope) <> Decoded d)
         by (intros d; rewrite Hp; discriminate);
       rewrite (debug_decoded_returns _ Hnd);
       destruct (try_decrypt_outcome self (incr_total (stats w)) envelope Hnd)
         as [-> | [(-> & Hk & Hall) | (data & Hdec & ->)]].
  all: try (unfold _check_ok_to_mqtt; rewrite Hp;
            apply (rejected_undecrypted _ _ _ _ envelope _ Hparse Hnd); auto).
  all: unfold _check_ok_to_mqtt; simpl payload_variant; cbv iota;
       destruct (bitfield data) as [b|] eqn:Hb;
       [|exact (rejected_silent _ _ _ _ envelope data Hparse Hdec Hb)];
       rewrite land_1_testbit; destruct (Z.testbit b 0) eqn:Hbit; simpl;
       [|exact (rejected_disabled _ _ _ _ envelope data b Hparse Hdec Hb Hbit)];
       destruct (publish client _ _) as [[]|e] eqn:Hpub;
       [exact (forwarded_published _ _ _ _ envelope data b Hparse Hdec Hb Hbit Hpub)
       |exact (forwarded_unpublished _ _ _ _ envelope data b e Hparse Hdec Hb Hbit Hpub)].
Qed.

End HandlerOutcome.

Section HandlerProperties.

Context {hashlib : Hashlib} {cipher : AesCtr} {protobuf : Protobuf}.

(** X2: a message whose packet arrives already decoded, whatever its
    bitfield, never reaches the admission check: formatting the debug line
    of line 129 raises [ValueError], the handler catches it, and the message
    is counted in [total] only; nothing is published. *)
Theorem on_message_decoded_dropped (self : Filter) (client : Client) (w : World)
    (msg : Msg.t) (envelope : ServiceEnvelope) (d : Data) :
  ParseEnvelope (Msg.payload msg) = Ok envelope ->
  payload_variant (packet envelope) = Decoded d ->
  on_message_try self client w msg
  = (mkWorld (incr_total (stats w)) (published w),
     Raise (ValueError "Invalid format specifier")) /\
  on_message self client w msg = mkWorld (incr_total (stats w)) (published w).
Proof.
  intros Hparse Hp.
  assert (E : on_message_try self client w msg
              = (mkWorld (incr_total (stats w)) (published w),
                 Raise (ValueError "Invalid format specifier"))).
  { unfold on_message_try. rewrite Hparse, (debug_decoded_raises _ _ Hp). reflexivity. }
  split; [exact E|]. unfold on_message. rewrite E. reflexivity.
Qed.

(** X3: the handler counts a message in [forwarded] only when its packet
    arrived encrypted, an entry of the ring is accepted on it, and the [Data]
    so recovered has a bitfield with bit 0 set; [decrypted] is then one more
    too. *)
Theorem forwarded_only_if_approved (self : Filter) (client : Client) (w : World)
    (msg : Msg.t) :
  forwarded (stats (on_message self client w msg)) <> forwarded (stats w) ->
  exists envelope data b,
    ParseEnvelope (Msg.payload msg) = Ok envelope /\
    decrypted_by self envelope data /\
    bitfield data = Some b /\ Z.testbit b 0 = true /\
    forwarded (stats (on_message self client w msg)) = forwarded (stats w) + 1 /\
    decrypted (stats (on_message self client w msg)) = decrypted (stats w) + 1.
Proof.
  unfold on_message.
  pose proof (on_message_try_outcome self client w msg) as H.
  remember (on_message_try self client w msg) as r eqn:Er. clear Er.
  destruct H as [e He | envelope d Hparse Hp | envelope st Hparse Hnd Hst
                 | envelope data Hparse Hdec Hb | envelope data b Hparse Hdec Hb Hbit
                 | envelope data b Hparse Hdec Hb Hbit Hpub
                 | envelope data b e Hparse Hdec Hb Hbit Hpub]; simpl; intros Hf;
    try (exfalso; apply Hf; reflexivity);
    try (exfalso; apply Hf; destruct Hst as [-> | [-> _]]; reflexivity);
    exists envelope, data, b; repeat (split; [assumption || reflexivity|]); reflexivity.
Qed.

(** X4: what one call of the handler publishes: nothing, or one
    message, the inbound payload byte for byte under the rewritten topic,
    after what was published before; and it publishes only what it counts in
    [forwarded]. *)
Theorem on_message_published (self : Filter) (client : Client) (w : World) (msg : Msg.t) :
  (published (on_message self client w msg) = published w \/
   published (on_message self client w msg)
   = published w ++ [(rewrite_topic self (Msg.topic msg), Msg.payload msg)]) /\
  (published (on_message self client w msg) <> published w ->
   forwarded (stats (on_message self client w msg)) = forwarded (stats w) + 1 /\
   publish client (rewrite_topic self (Msg.topic msg)) (Msg.payload msg) = Ok tt).
Proof.
  unfold on_message.
  pose proof (on_message_try_outcome self client w msg) as H.
  remember (on_message_try self client w msg) as r eqn:Er. clear Er.
  destruct H; simpl; (split; [auto|]); intros Hne;
    try (exfalso; apply Hne; reflexivity); auto.
Qed.

(** X5: a packet without payload, or with an empty ciphertext, is
    rejected as encrypted whatever the ring: no decryption is attempted, so
    neither [decrypted] nor [decryption_failed] moves. *)
Theorem on_message_no_ciphertext (self : Filter) (client : Client) (w : World)
    (msg : Msg.t) (envelope : ServiceEnvelope) :
  ParseEnvelope (Msg.payload msg) = Ok envelope ->
  payload_variant (packet envelope) = NotSet \/
  payload_variant (packet envelope) = Encrypted [] ->
  on_message self client w msg
  = mkWorld (incr_rejected_encrypted (incr_total (stats w))) (published w).
Proof.
  intros Hparse Hp. unfold on_message, on_message_try. rewrite Hparse. cbv zeta.
  unfold debug_decoded, try_decrypt, _decrypt_packet, _check_ok_to_mqtt,
    HasField_decoded, HasField_encrypted, encrypted.
  destruct Hp as [Hp | Hp]; rewrite !Hp; simpl.
  - rewrite Hp. reflexivity.
  - destruct (keys self); simpl; rewrite Hp; reflexivity.
Qed.

(** X6: an encrypted packet that every entry of a non-empty ring
    rejects is counted in [total], in [decryption_failed] and in
    [rejected_encrypted], and is not published. *)
Theorem on_message_undecryptable (self : Filter) (client : Client) (w : World)
    (msg : Msg.t) (envelope : ServiceEnvelope) (ciphertext : bytes) :
  ParseEnvelope (Msg.payload msg) = Ok envelope ->
  payload_variant (packet envelope) = Encrypted ciphertext -> ciphertext <> [] ->
  keys self <> [] ->
  (forall n k, In (n, k) (keys self) ->
               rejected (packet envelope) (channel_id envelope) k) ->
  on_message self client w msg
  = mkWorld (incr_rejected_encrypted (incr_decryption_failed (incr_total (stats w))))
            (published w).
Proof.
  intros Hparse Hp Hne Hk Hrej. unfold on_message, on_message_try. rewrite Hparse.
  assert (Hnd : forall d, payload_variant (packet envelope) <> Decoded d)
    by (intros d; rewrite Hp; discriminate).
  rewrite (debug_decoded_returns _ Hnd).
  assert (E : try_decrypt self (incr_total (stats w)) envelope (packet envelope)
              = (incr_decryption_failed (incr_total (stats w)), packet envelope)).
  { unfold try_decrypt, HasField_decoded, HasField_encrypted. rewrite Hp. simpl.
    destruct (keys self) as [|entry ring] eqn:Ek; [congruence|].
    rewrite channel_name_default.
    rewrite (decrypt_packet_loop _ _ _ _ _ Hp Hne).
    rewrite <- (app_nil_r (keys self)).
    rewrite try_keys_rejected_prefix by (rewrite Ek; exact Hrej). reflexivity. }
  rewrite E. unfold _check_ok_to_mqtt. rewrite Hp. reflexivity.
Qed.

(** X7: the forward path from end to end.  An encrypted packet on which
    the first accepted entry of the ring recovers a [Data] whose bitfield has
    bit 0 set is counted in [total], [decrypted] and [forwarded], and, when
    [publish] returns, the inbound payload is published unchanged (still
    encrypted) under the rewritten topic. *)
Theorem on_message_forwards (self : Filter) (client : Client) (w : World)
    (msg : Msg.t) (envelope : ServiceEnvelope) (ciphertext : bytes)
    (pre post : list (string * bytes)) (key_name : string) (base_key : bytes)
    (data : Data) (b : Z) :
  ParseEnvelope (Msg.payload msg) = Ok envelope ->
  payload_variant (packet envelope) = Encrypted ciphertext -> ciphertext <> [] ->
  keys self = pre ++ (key_name, base_key) :: post ->
  (forall n k, In (n, k) pre -> rejected (packet envelope) (channel_id envelope) k) ->
  accepted (packet envelope) (channel_id envelope) base_key data ->
  bitfield data = Some b -> Z.testbit b 0 = true ->
  publish client (rewrite_topic self (Msg.topic msg)) (Msg.payload msg) = Ok tt ->
  on_message self client w msg
  = mkWorld (incr_forwarded (incr_decrypted (incr_total (stats w))))
            (published w ++ [(rewrite_topic self (Msg.topic msg), Msg.payload msg)]).
Proof.
  intros Hparse Hp Hne Hk Hrej Hacc Hb Hbit Hpub.
  unfold on_message, on_message_try. rewrite Hparse.
  assert (Hnd : forall d, payload_variant (packet envelope) <> Decoded d)
    by (intros d; rewrite Hp; discriminate).
  rewrite (debug_decoded_returns _ Hnd).
  assert (E : try_decrypt self (incr_total (stats w)) envelope (packet envelope)
              = (incr_decrypted (incr_total (stats w)),
                 set_payload_variant (packet envelope) (Decoded data))).
  { unfold try_decrypt, HasField_decoded, HasField_encrypted. rewrite Hp. simpl.
    destruct (keys self) as [|entry ring] eqn:Ek; [destruct pre; discriminate|].
    rewrite channel_name_default.
    rewrite (decrypt_packet_accepts _ _ _ _ _ _ _ _ _ _ Hp Hne (eq_trans Ek Hk) Hrej Hacc).
    reflexivity. }
  rewrite E. unfold _check_ok_to_mqtt. simpl payload_variant. cbv iota.
  rewrite Hb, land_1_testbit, Hbit. simpl. rewrite Hpub. reflexivity.
Qed.

End HandlerProperties.

Lemma on_message_decoded_dropped_witness :
  on_message (sample_filter default_ring) mock_client initial_world
             (sample_message (sample_packet 123456 (Decoded sample_data)))
  = mkWorld (mkStats 1 0 0 0 0 0 0) [].
Proof.
  refine (proj2 (on_message_decoded_dropped
                   (sample_filter default_ring) mock_client initial_world
                   (sample_message (sample_packet 123456 (Decoded sample_data)))
                   (sample_envelope (sample_packet 123456 (Decoded sample_data)))
                   sample_data _ eq_refl)).
  vm_compute. reflexivity.
Defined.

Lemma forwarded_only_if_approved_witness :
  exists envelope data b,
    ParseEnvelope
      (Msg.payload (sample_message (sample_packet 123456 (Encrypted ciphertext_default))))
    = Ok envelope /\
    decrypted_by (sample_filter default_ring) envelope data /\
    bitfield data = Some b /\ Z.testbit b 0 = true /\
    forwarded (stats (on_message (sample_filter default_ring) mock_client initial_world
                        (sample_message
                           (sample_packet 123456 (Encrypted ciphertext_default)))))
    = forwarded (stats initial_world) + 1 /\
    decrypted (stats (on_message (sample_filter default_ring) mock_client initial_world
                        (sample_message
                           (sample_packet 123456 (Encrypted ciphertext_default)))))
    = decrypted (stats initial_world) + 1.
Proof.
  apply (forwarded_only_if_approved (sample_filter default_ring) mock_client initial_world).
  vm_compute. discriminate.
Defined.

Lemma on_message_published_witness :
  forwarded (stats (on_message (sample_filter default_ring) mock_client initial_world
                      (sample_message
                         (sample_packet 123456 (Encrypted ciphertext_default)))))
  = forwarded (stats initial_world) + 1 /\
  publish mock_client
    (rewrite_topic (sample_filter default_ring)
       (Msg.topic (sample_message (sample_packet 123456 (Encrypted ciphertext_default)))))
    (Msg.payload (sample_message (sample_packet 123456 (Encrypted ciphertext_default))))
  = Ok tt.
Proof.
  apply (proj2 (on_message_published (sample_filter default_ring) mock_client initial_world
                  (sample_message (sample_packet 123456 (Encrypted ciphertext_default))))).
  vm_compute. discriminate.
Defined.

Lemma on_message_no_ciphertext_witness :
  on_message (sample_filter default_ring) mock_client initial_world
             (sample_message (sample_packet 123456 (Encrypted [])))
  = mkWorld (mkStats 1 0 1 0 0 0 0) [].
Proof.
  refine (on_message_no_ciphertext
            (sample_filter default_ring) mock_client initial_world
            (sample_message (sample_packet 123456 (Encrypted [])))
            (sample_envelope (sample_packet 123456 (Encrypted []))) _ _).
  - vm_compute. reflexivity.
  - right. reflexivity.
Defined.

Lemma on_message_undecryptable_witness :
  on_message (sample_filter default_ring) mock_client initial_world
             (sample_message (sample_packet 123456 (Encrypted ciphertext_custom)))
  = mkWorld (mkStats 1 0 1 0 0 0 1) [].
Proof.
  refine (on_message_undecryptable
            (sample_filter default_ring) mock_client initial_world
            (sample_message (sample_packet 123456 (Encrypted ciphertext_custom)))
            (sample_envelope (sample_packet 123456 (Encrypted ciphertext_custom)))
            ciphertext_custom _ eq_refl _ _ _).
  - vm_compute. reflexivity.
  - discriminate.
  - discriminate.
  - intros n k [E|[]]. injection E as <- <-. reject_by_trial.
Defined.

Lemma on_message_forwards_witness :
  on_message (sample_filter two_key_ring) mock_client initial_world
             (sample_message (sample_packet 123456 (Encrypted ciphertext_custom)))
  = mkWorld (mkStats 1 1 0 0 0 1 0)
            [("filtered/test/2/e/LongFast/!12345678"%string,
              Msg.payload (sample_message
                             (sample_packet 123456 (Encrypted ciphertext_custom))))].
Proof.
  refine (on_message_forwards
            (sample_filter two_key_ring) mock_client initial_world
            (sample_message (sample_packet 123456 (Encrypted ciphertext_custom)))
            (sample_envelope (sample_packet 123456 (Encrypted ciphertext_custom)))
            ciphertext_custom [("default"%string, DEFAULT_KEY)] [] "custom-0" CUSTOM_KEY
            sample_data 1 _ eq_refl _ eq_refl _ _ eq_refl eq_refl eq_refl).
  - vm_compute. reflexivity.
  - discriminate.
  - intros n k [E|[]]. injection E as <- <-. reject_by_trial.
  - apply trial_accepted. vm_compute. reflexivity.
Defined.

(** ** Invariants of a run *)

Section RunInvariants.

Context {hashlib : Hashlib} {cipher : AesCtr} {protobuf : Protobuf}.

Lemma published_step (self : Filter) (client : Client) (w : World) (msg : Msg.t) :
  published (on_message self client w msg) = published w \/
  published (on_message self client w msg)
  = published w ++ [(rewrite_topic self (Msg.topic msg), Msg.payload msg)].
Proof.
  unfold on_message.
  pose proof (on_message_try_outcome self client w msg) as H.
  remember (on_message_try self client w msg) as r eqn:Er. clear Er.
  destruct H; simpl; auto.
Qed.

(** What one message does to the quantities a run keeps. *)
Lemma on_message_deltas (self : Filter) (client : Client) (w : World) (msg : Msg.t) :
  let s := stats w in
  let s' := stats (on_message self client w msg) in
  let n := Z.of_nat (List.length (published w)) in
  let n' := Z.of_nat (List.length (published (on_message self client w msg))) in
  forwarded s' + rejected_no_bitfield s' + rejected_bitfield_disabled s' - decrypted s'
  = forwarded s + rejected_no_bitfield s + rejected_bitfield_disabled s - decrypted s /\
  rejected_encrypted s - decryption_failed s
  <= rejected_encrypted s' - decryption_failed s' /\
  total s - decrypted s - decryption_failed s
  <= total s' - decrypted s' - decryption_failed s' /\
  forwarded s - n <= forwarded s' - n' /\
  (publish_returns client -> forwarded s' - n' = forwarded s - n).
Proof.
  cbv zeta. unfold on_message.
  pose proof (on_message_try_outcome self client w msg) as H.
  remember (on_message_try self client w msg) as r eqn:Er. clear Er.
  destruct H as [e He | envelope d Hparse Hp | envelope st Hparse Hnd Hst
                 | envelope data Hparse Hdec Hb | envelope data b Hparse Hdec Hb Hbit
                 | envelope data b Hparse Hdec Hb Hbit Hpub
                 | envelope data b e Hparse Hdec Hb Hbit Hpub];
    try (destruct Hst as [-> | [-> _]]); simpl;
    rewrite ?length_app; simpl;
    repeat split; try lia.
  intros Hret. rewrite Hret in Hpub. discriminate.
Qed.

Lemma run_deltas (self : Filter) (client : Client) (msgs : list Msg.t) (w : World) :
  let s := stats w in
  let s' := stats (run self client w msgs) in
  let n := Z.of_nat (List.length (published w)) in
  let n' := Z.of_nat (List.length (published (run self client w msgs))) in
  forwarded s' + rejected_no_bitfield s' + rejected_bitfield_disabled s' - decrypted s'
  = forwarded s + rejected_no_bitfield s + rejected_bitfield_disabled s - decrypted s /\
  rejected_encrypted s - decryption_failed s
  <= rejected_encrypted s' - decryption_failed s' /\
  total s - decrypted s - decryption_failed s
  <= total s' - decrypted s' - decryption_failed s' /\
  forwarded s - n <= forwarded s' - n' /\
  (publish_returns client -> forwarded s' - n' = forwarded s - n).
Proof.
  cbv zeta. unfold run. revert w. induction msgs as [|msg msgs IH]; intros w.
  - simpl. repeat split; lia.
  - cbn [fold_left].
    destruct (IH (on_message self client w msg)) as (I1 & I2 & I3 & I4 & I5).
    destruct (on_message_deltas self client w msg) as (D1 & D2 & D3 & D4 & D5).
    cbv zeta in D1, D2, D3, D4, D5.
    repeat split; try lia.
    intros Hret. specialize (I5 Hret). specialize (D5 Hret). lia.
Qed.

(** X8: after any sequence of messages from the counters of
    [__init__], whatever the client and the libraries do: every decrypted
    packet has met the bitfield check, [forwarded + rejected_no_bitfield +
    rejected_bitfield_disabled = decrypted]; every failed decryption was
    rejected as encrypted, [decryption_failed <= rejected_encrypted]; no
    message counts in both [decrypted] and [decryption_failed]; the messages
    published are at most [forwarded], and exactly [forwarded] when [publish]
    never raises. *)
Theorem run_invariants (self : Filter) (client : Client) (msgs : list Msg.t) :
  let w := run self client initial_world msgs in
  forwarded (stats w) + rejected_no_bitfield (stats w) + rejected_bitfield_disabled (stats w)
  = decrypted (stats w) /\
  decryption_failed (stats w) <= rejected_encrypted (stats w) /\
  decrypted (stats w) + decryption_failed (stats w) <= total (stats w) /\
  Z.of_nat (List.length (published w)) <= forwarded (stats w) /\
  (publish_returns client -> Z.of_nat (List.length (published w)) = forwarded (stats w)).
Proof.
  cbv zeta.
  destruct (run_deltas self client msgs initial_world) as (I1 & I2 & I3 & I4 & I5).
  cbv zeta in I1, I2, I3, I4, I5. simpl in I1, I2, I3, I4, I5.
  repeat split; try lia.
  intros Hret. specialize (I5 Hret). lia.
Qed.

(** X9: what a run publishes is what was published before, followed by
    some of the inbound messages, in the order of arrival, each at most once,
    each with its payload unchanged under its rewritten topic: the handler
    never publishes anything else. *)
Theorem run_published (self : Filter) (client : Client) (msgs : list Msg.t) (w : World) :
  exists l,
    published (run self client w msgs) = published w ++ l /\
    subseq l (map (fun m => (rewrite_topic self (Msg.topic m), Msg.payload m)) msgs).
Proof.
  unfold run. revert w. induction msgs as [|msg msgs IH]; intros w.
  - exists []. simpl. rewrite app_nil_r. split; [reflexivity | constructor].
  - cbn [fold_left map].
    destruct (IH (on_message self client w msg)) as (l & El & Hl).
    destruct (published_step self client w msg) as [E | E]; rewrite E in El.
    + exists l. split; [exact El|]. apply subseq_skip, Hl.
    + exists ((rewrite_topic self (Msg.topic msg), Msg.payload msg) :: l).
      split; [rewrite El, <- app_assoc; reflexivity|]. apply subseq_keep, Hl.
Qed.

End RunInvariants.

Lemma run_invariants_witness :
  let msgs := [sample_message (sample_packet 123456 (Encrypted ciphertext_default));
               malformed_message;
               sample_message (sample_packet 123456 (Encrypted ciphertext_custom))] in
  let w := run (sample_filter default_ring) mock_client initial_world msgs in
  Z.of_nat (List.length (published w)) = forwarded (stats w).
Proof.
  cbv zeta.
  apply (proj2 (proj2 (proj2 (proj2 (run_invariants (sample_filter default_ring)
                                       mock_client _))))).
  intros topic payload. reflexivity.
Defined.

(** ** The nonce, again *)

Lemma byte_of_Z_value (z : Z) : Z.of_N (Byte.to_N (byte_of_Z z)) = z mod 256.
Proof.
  unfold byte_of_Z.
  assert (Hr : 0 <= z mod 256 < 256) by (apply Z.mod_pos_bound; lia).
  destruct (Byte.of_N (Z.to_N (z mod 256))) as [b|] eqn:E.
  - apply Byte.to_of_N in E. rewrite E. apply Z2N.id. lia.
  - apply Byte.of_N_None_iff in E. lia.
Qed.

(** The bytes [int.to_bytes] writes, read back as a little-endian
    number. *)
Lemma le_bytes_value (n : nat) (v : Z) :
  Z.of_N (Wire.le_value (le_bytes n v)) = v mod 256 ^ Z.of_nat n.
Proof.
  revert v. induction n as [|n IH]; intros v.
  - simpl. rewrite Z.mod_1_r. reflexivity.
  - cbn [le_bytes Wire.le_value].
    rewrite N2Z.inj_add, N2Z.inj_mul, byte_of_Z_value, IH.
    rewrite Nat2Z.inj_succ, Z.pow_succ_r by lia.
    rewrite Z.rem_mul_r by lia. reflexivity.
Qed.

Lemma app_inj_length {A : Type} (l1 l1' l2 l2' : list A) :
  List.length l1 = List.length l1' -> l1 ++ l2 = l1' ++ l2' -> l1 = l1' /\ l2 = l2'.
Proof.
  revert l1'. induction l1 as [|x l1 IH]; intros [|x' l1'] Hlen E;
    try discriminate Hlen.
  - split; [reflexivity | exact E].
  - injection E as -> E. injection Hlen as Hlen.
    destruct (IH l1' Hlen E) as [-> ->]. split; reflexivity.
Qed.

Lemma to_bytes_le_ok (n : nat) (v : Z) (b : bytes) :
  to_bytes_le n v = Ok b -> 0 <= v < 2 ^ (8 * Z.of_nat n) /\ b = le_bytes n v.
Proof.
  unfold to_bytes_le.
  destruct (Z.ltb_spec v 0); [discriminate|].
  destruct (Z.leb_spec (2 ^ (8 * Z.of_nat n)) v); [discriminate|].
  intros [= <-]. split; [lia | reflexivity].
Qed.

Lemma le_bytes_8_inj (v v' : Z) :
  0 <= v < 2 ^ 64 -> 0 <= v' < 2 ^ 64 -> le_bytes 8 v = le_bytes 8 v' -> v = v'.
Proof.
  intros Hv Hv' E.
  pose proof (le_bytes_value 8 v) as H. rewrite E, le_bytes_value in H.
  change (256 ^ Z.of_nat 8) with (2 ^ 64) in H.
  rewrite !Z.mod_small in H by assumption. symmetry. exact H.
Qed.

(** X10: the nonce determines the packet id and the sender: two packets
    get the same nonce only when they have the same id and the same sender.
    The nonce exists exactly when both are in the range of 8 bytes, and has
    then 16 bytes; otherwise [int.to_bytes] raises [OverflowError]. *)
Theorem make_nonce_injective (packet_id from_id : Z) :
  (forall packet_id' from_id' nonce,
      make_nonce packet_id from_id = Ok nonce ->
      make_nonce packet_id' from_id' = Ok nonce ->
      packet_id = packet_id' /\ from_id = from_id') /\
  (0 <= packet_id < 2 ^ 64 /\ 0 <= from_id < 2 ^ 64 ->
   exists nonce, make_nonce packet_id from_id = Ok nonce /\ List.length nonce = 16%nat) /\
  (~ (0 <= packet_id < 2 ^ 64 /\ 0 <= from_id < 2 ^ 64) ->
   make_nonce packet_id from_id = Raise OverflowError).
Proof.
  split; [|split].
  - intros packet_id' from_id' nonce. unfold make_nonce.
    destruct (to_bytes_le 8 packet_id) as [p|] eqn:Ep; [|discriminate].
    destruct (to_bytes_le 8 from_id) as [f|] eqn:Ef; [|discriminate].
    destruct (to_bytes_le 8 packet_id') as [p'|] eqn:Ep'; [|discriminate].
    destruct (to_bytes_le 8 from_id') as [f'|] eqn:Ef'; [|discriminate].
    intros [= <-] [= E].
    apply to_bytes_le_ok in Ep, Ef, Ep', Ef'.
    change (2 ^ (8 * Z.of_nat 8)) with (2 ^ 64) in *.
    destruct Ep as [Rp ->], Ef as [Rf ->], Ep' as [Rp' ->], Ef' as [Rf' ->].
    apply app_inj_length in E; [|rewrite !le_bytes_length; reflexivity].
    destruct E as [E1 E2].
    split; symmetry; apply le_bytes_8_inj; assumption.
  - intros [Hp Hf]. unfold make_nonce, to_bytes_le.
    change (2 ^ (8 * Z.of_nat 8)) with (2 ^ 64).
    destruct (Z.ltb_spec packet_id 0); [lia|].
    destruct (Z.leb_spec (2 ^ 64) packet_id); [lia|].
    destruct (Z.ltb_spec from_id 0); [lia|].
    destruct (Z.leb_spec (2 ^ 64) from_id); [lia|].
    exists (le_bytes 8 packet_id ++ le_bytes 8 from_id).
    split; [reflexivity|]. rewrite length_app, !le_bytes_length. reflexivity.
  - intros Hn. unfold make_nonce, to_bytes_le.
    change (2 ^ (8 * Z.of_nat 8)) with (2 ^ 64).
    destruct (Z.ltb_spec packet_id 0); [reflexivity|].
    destruct (Z.leb_spec (2 ^ 64) packet_id); [reflexivity|].
    destruct (Z.ltb_spec from_id 0); [reflexivity|].
    destruct (Z.leb_spec (2 ^ 64) from_id); [reflexivity|]. lia.
Qed.

Lemma make_nonce_injective_witness :
  exists nonce, make_nonce 123456 0x12345678 = Ok nonce /\ List.length nonce = 16%nat.
Proof.
  apply (proj1 (proj2 (make_nonce_injective 123456 0x12345678))).
  split; split; (discriminate || reflexivity).
Defined.

(** ** The stripped prefixes *)

Lemma has_wildcard_app (a b : string) :
  has_wildcard (a ++ b) = has_wildcard a || has_wildcard b.
Proof.
  induction a as [|c a IH]; simpl; [reflexivity|].
  rewrite IH, Bool.orb_assoc. reflexivity.
Qed.

(** X11: when the wildcard-stripped inbound prefix still has a wildcard
    in it (a subscription such as "msh/+/2/#"), no topic name, which has no
    wildcard, contains it: every message is republished under the very topic
    it arrived on, and the outbound prefix is never used. *)
Theorem rewrite_topic_wildcard_prefix (self : Filter) (topic : string) :
  has_wildcard (Str.rstrip "/#" (input_topic self)) = true ->
  has_wildcard topic = false ->
  rewrite_topic self topic = topic.
Proof.
  intros Hp Ht. unfold rewrite_topic. apply StrFacts.replace1_absent.
  intros (a & b & E). rewrite E, !has_wildcard_app, Hp in Ht.
  rewrite Bool.orb_true_r in Ht. simpl in Ht. discriminate.
Qed.

Lemma rewrite_topic_wildcard_prefix_witness :
  rewrite_topic (mkFilter default_ring "msh/+/2/#" "filtered")
                "msh/US/2/e/LongFast/!12345678"
  = "msh/US/2/e/LongFast/!12345678"%string.
Proof.
  apply rewrite_topic_wildcard_prefix; reflexivity.
Defined.

Lemma rstrip_all_in (chars s : string) : all_in chars s = true -> Str.rstrip chars s = ""%string.
Proof.
  induction s as [|c s IH]; simpl; [reflexivity|].
  intros H. apply Bool.andb_true_iff in H. destruct H as [Hc Hs].
  rewrite (IH Hs), Hc. reflexivity.
Qed.

Lemma rstrip_suffix (chars s : string) :
  exists t, s = (Str.rstrip chars s ++ t)%string /\ all_in chars t = true.
Proof.
  induction s as [|c s (t & E & Ht)]; simpl.
  - exists ""%string. split; reflexivity.
  - destruct (Str.rstrip chars s) as [|d r] eqn:Er.
    + destruct (Str.mem c chars) eqn:Hc.
      * exists (String c s). split; [reflexivity|]. simpl in E. subst t.
        simpl. rewrite Hc. exact Ht.
      * exists t. split; [|exact Ht]. simpl in *. congruence.
    + exists t. split; [|exact Ht]. simpl in *. congruence.
Qed.

Lemma rstrip_last (chars s r : string) (c : ascii) :
  Str.rstrip chars s = (r ++ String c "")%string -> Str.mem c chars = false.
Proof.
  revert r. induction s as [|a s IH]; intros r; simpl.
  - destruct r; discriminate.
  - destruct (Str.rstrip chars s) as [|d t] eqn:Er.
    + destruct (Str.mem a chars) eqn:Ha.
      * destruct r; discriminate.
      * destruct r as [|x [|y r]]; simpl; intros [= E]; subst; try assumption;
          discriminate.
    + destruct r as [|x r]; simpl; [intros [= _ E]; discriminate E|].
      intros [= _ E]. exact (IH r E).
Qed.

(** X12: [rstrip] cuts off exactly a trailing run of the given
    characters: what it removes is made of them, and what it leaves does not
    end in one of them.  So the inbound and outbound prefixes of the rewrite
    never end in '/' or '#', however the topics were configured. *)
Theorem rstrip_spec (chars s : string) :
  (exists t, s = (Str.rstrip chars s ++ t)%string /\ all_in chars t = true) /\
  (forall r c, Str.rstrip chars s = (r ++ String c "")%string -> Str.mem c chars = false) /\
  (all_in chars s = true -> Str.rstrip chars s = ""%string).
Proof.
  split; [apply rstrip_suffix|]. split; [apply rstrip_last | apply rstrip_all_in].
Qed.

Lemma rstrip_spec_witness :
  Str.mem "Y" "/#" = false /\ Str.rstrip "/#" "//#" = ""%string.
Proof.
  split.
  - apply (proj1 (proj2 (rstrip_spec "/#" "msh/US/NY/#")) "msh/US/N"%string "Y"%char).
    reflexivity.
  - apply (proj2 (proj2 (rstrip_spec "/#" "//#"))). reflexivity.
Defined.

(** X13: with an input topic made only of '/' and '#' (the subscription
    "#" to everything), the stripped inbound prefix is empty and the stripped
    outbound prefix is put in front of every topic as it is, with no
    separator of its own. *)
Theorem rewrite_topic_subscribe_all (self : Filter) (topic : string) :
  all_in "/#" (input_topic self) = true ->
  rewrite_topic self topic = (Str.rstrip "/#" (output_topic self) ++ topic)%string.
Proof.
  intros H. unfold rewrite_topic. rewrite (rstrip_all_in _ _ H).
  rewrite StrFacts.replace1_eq. destruct topic; reflexivity.
Qed.

Lemma rewrite_topic_subscribe_all_witness :
  rewrite_topic (mkFilter default_ring "#" "filtered/") "msh/US/2/e/LongFast/!12345678"
  = "filteredmsh/US/2/e/LongFast/!12345678"%string.
Proof.
  apply (rewrite_topic_subscribe_all (mkFilter default_ring "#" "filtered/")).
  reflexivity.
Defined.

(** ** The key ring of [__init__] *)

Section InitProperties.

Context {base64 : Base64}.

Lemma custom_keys_in (l : list string) (i : nat) (name : string) (key : bytes) :
  In (name, key) (custom_keys i l) <->
  exists j key_b64,
    nth_error l j = Some key_b64 /\ b64decode key_b64 = Ok key /\
    name = ("custom-" ++ decimal (i + j))%string.
Proof.
  revert i name. induction l as [|k l IH]; intros i name; cbn [custom_keys].
  - split; [intros [] | intros (j & kb & H & _)]. destruct j; discriminate.
  - split.
    + destruct (b64decode k) as [b|e] eqn:E; [intros [H|H]|intros H].
      * injection H as <- <-. exists O, k. rewrite Nat.add_0_r. auto.
      * apply IH in H. destruct H as (j & kb & Hn & Hd & Hname).
        exists (S j), kb. rewrite Nat.add_succ_r. auto.
      * apply IH in H. destruct H as (j & kb & Hn & Hd & Hname).
        exists (S j), kb. rewrite Nat.add_succ_r. auto.
    + intros ([|j] & kb & Hn & Hd & Hname); simpl in Hn.
      * injection Hn as ->. rewrite Hd, Hname, Nat.add_0_r. left; reflexivity.
      * assert (H : In (name, key) (custom_keys (S i) l)).
        { apply IH. exists j, kb. rewrite Nat.add_succ_r in Hname. auto. }
        destruct (b64decode k); [right|]; exact H.
Qed.

Lemma custom_keys_values (l : list string) (i : nat) :
  map snd (custom_keys i l)
  = flat_map (fun key_b64 => match b64decode key_b64 with
                             | Ok key => [key]
                             | Raise _ => []
                             end) l.
Proof.
  revert i. induction l as [|k l IH]; intros i; simpl; [reflexivity|].
  destruct (b64decode k); simpl; rewrite IH; reflexivity.
Qed.

Lemma custom_keys_length (l : list string) (i : nat) :
  (List.length (custom_keys i l) <= List.length l)%nat.
Proof.
  revert i. induction l as [|k l IH]; intros i; simpl; [lia|].
  destruct (b64decode k); simpl; specialize (IH (S i)); lia.
Qed.

Lemma init_keys_some (decrypt_default : bool) (l : list string) :
  init_keys decrypt_default (Some l)
  = (if decrypt_default then [("default"%string, DEFAULT_KEY)] else [])
    ++ custom_keys 0 l.
Proof. unfold init_keys. destruct l; reflexivity. Qed.

(** X14: the ring [__init__] builds from a list of base64 keys: the
    default key first when it is enabled, then the keys that decode, in the
    order of the list; a key that does not decode is left out and the keys
    after it still enter.  An entry is named after the position of its key in
    the list, whether or not earlier keys decoded, and the ring has at most
    one entry more than the list. *)
Theorem init_keys_spec (decrypt_default : bool) (l : list string) :
  let ring := init_keys decrypt_default (Some l) in
  map snd ring
  = (if decrypt_default then [DEFAULT_KEY] else [])
    ++ flat_map (fun key_b64 => match b64decode key_b64 with
                                | Ok key => [key]
                                | Raise _ => []
                                end) l /\
  (forall name key,
      In (name, key) ring <->
      (decrypt_default = true /\ name = "default"%string /\ key = DEFAULT_KEY) \/
      (exists j key_b64,
          nth_error l j = Some key_b64 /\ b64decode key_b64 = Ok key /\
          name = ("custom-" ++ decimal j)%string)) /\
  (List.length ring <= (if decrypt_default then 1 else 0) + List.length l)%nat /\
  init_keys decrypt_default None = (if decrypt_default
                                    then [("default"%string, DEFAULT_KEY)] else []).
Proof.
  cbv zeta. rewrite init_keys_some. split; [|split; [|split]].
  - rewrite map_app, custom_keys_values. destruct decrypt_default; reflexivity.
  - intros name key. rewrite in_app_iff, custom_keys_in. simpl Nat.add.
    destruct decrypt_default; simpl; split.
    + intros [[[= <- <-]|[]]|H]; auto.
    + intros [(_ & -> & ->)|H]; auto.
    + intros [[]|H]; auto.
    + intros [(H & _)|H]; [discriminate | auto].
  - rewrite length_app. pose proof (custom_keys_length l 0).
    destruct decrypt_default; simpl; lia.
  - unfold init_keys. rewrite app_nil_r. reflexivity.
Qed.

End InitProperties.

(** The keys of [test_invalid_custom_key] and [test_add_custom_keys]:
    the first does not decode, the second is named after its position. *)
Lemma init_keys_spec_witness :
  In ("custom-1"%string, CUSTOM_KEY)
     (init_keys true (Some ["invalid-base64!@#"; "MDEyMzQ1Njc4OWFiY2RlZg=="]%string)) /\
  init_keys true (Some ["invalid-base64!@#"; "MDEyMzQ1Njc4OWFiY2RlZg=="]%string)
  = [("default"%string, DEFAULT_KEY); ("custom-1"%string, CUSTOM_KEY)].
Proof.
  split; [|vm_compute; reflexivity].
  apply (proj1 (proj2 (init_keys_spec
                         true ["invalid-base64!@#"; "MDEyMzQ1Njc4OWFiY2RlZg=="]%string))).
  right. exists 1%nat, "MDEyMzQ1Njc4OWFiY2RlZg=="%string.
  split; [reflexivity|]. split; vm_compute; reflexivity.
Defined.

Example default_key_base64 : b64decode "1PG7OiApB1nwvP+rz05pAQ==" = Ok DEFAULT_KEY.
Proof. vm_compute. reflexivity. Qed.

(** ** A filter without keys, and keys of the wrong size *)

Section RingProperties.

Context {hashlib : Hashlib} {cipher : AesCtr} {protobuf : Protobuf}.

Lemma empty_ring_step (self : Filter) (client : Client) (w : World) (msg : Msg.t) :
  keys self = [] ->
  published (on_message self client w msg) = published w /\
  forwarded (stats (on_message self client w msg)) = forwarded (stats w) /\
  decrypted (stats (on_message self client w msg)) = decrypted (stats w) /\
  decryption_failed (stats (on_message self client w msg)) = decryption_failed (stats w).
Proof.
  intros Hk. unfold on_message.
  pose proof (on_message_try_outcome self client w msg) as H.
  remember (on_message_try self client w msg) as r eqn:Er. clear Er.
  destruct H as [e He | envelope d Hparse Hp | envelope st Hparse Hnd Hst
                 | envelope data Hparse Hdec Hb | envelope data b Hparse Hdec Hb Hbit
                 | envelope data b Hparse Hdec Hb Hbit Hpub
                 | envelope data b e Hparse Hdec Hb Hbit Hpub];
    try (destruct Hdec as (c & n & k & _ & _ & Hin & _); rewrite Hk in Hin;
         destruct Hin);
    try (destruct Hst as [-> | [_ [Hne _]]]; [|contradiction]);
    simpl; auto.
Qed.

(** X15: a filter whose ring is empty (no default key and no custom key
    that decodes) never publishes anything and never counts a message in
    [forwarded], whatever it receives: encrypted packets stay encrypted, and
    packets that arrive decoded are dropped on the debug line.  It counts no
    decryption, successful or failed. *)
Theorem empty_ring_never_forwards (self : Filter) (client : Client) (msgs : list Msg.t)
    (w : World) :
  keys self = [] ->
  published (run self client w msgs) = published w /\
  forwarded (stats (run self client w msgs)) = forwarded (stats w) /\
  decrypted (stats (run self client w msgs)) = decrypted (stats w) /\
  decryption_failed (stats (run self client w msgs)) = decryption_failed (stats w).
Proof.
  intros Hk. unfold run. revert w. induction msgs as [|msg msgs IH]; intros w.
  - simpl. auto.
  - cbn [fold_left].
    destruct (IH (on_message self client w msg)) as (I1 & I2 & I3 & I4).
    destruct (empty_ring_step self client w msg Hk) as (S1 & S2 & S3 & S4).
    repeat split; congruence.
Qed.

Lemma effective_key_primary (base_key : bytes) (channel_name : string) :
  channel_name = ""%string \/ channel_name = "LongFast"%string ->
  effective_key base_key channel_name = base_key.
Proof. intros [-> | ->]; reflexivity. Qed.

Lemma effective_key_named (base_key : bytes) (channel_name : string) :
  channel_name <> ""%string -> channel_name <> "LongFast"%string ->
  effective_key base_key channel_name = sha256 (base_key ++ encode_utf8 channel_name).
Proof.
  intros Hne Hlf. unfold effective_key, truthy, str_in.
  destruct (String.eqb_spec channel_name ""); [contradiction|].
  destruct (String.eqb_spec channel_name "LongFast"); [contradiction|].
  simpl. apply derive_key_nonempty, Hne.
Qed.

(** X16: the ring takes a key of any length, and the loop hands it to
    AES as it is on the channels "" and "LongFast": there a base key that has
    not 16, 24 or 32 bytes is rejected on every packet, so it never decrypts
    anything.  On every other channel the key handed to AES is a SHA-256
    digest and has a valid size whatever the base key. *)
Theorem key_size_on_channels (base_key : bytes) (channel_name : string) :
  AesCtr_key_size cipher -> Hashlib_spec hashlib ->
  (Aes.valid_key_size (List.length base_key) = false ->
   channel_name = ""%string \/ channel_name = "LongFast"%string ->
   forall packet, rejected packet channel_name base_key) /\
  (channel_name <> ""%string -> channel_name <> "LongFast"%string ->
   Aes.valid_key_size (List.length (effective_key base_key channel_name)) = true).
Proof.
  intros Hsize Hhash. split.
  - intros Hbad Hch packet data (nonce & decrypted_bytes & _ & Hc & _).
    rewrite (effective_key_primary _ _ Hch) in Hc.
    destruct (Hsize base_key nonce (encrypted packet) Hbad) as [e He]. congruence.
  - intros Hne Hlf. rewrite (effective_key_named _ _ Hne Hlf), Hhash. reflexivity.
Qed.

End RingProperties.

Lemma aes_ctr_reference_key_size : AesCtr_key_size reference_cipher.
Proof.
  intros key nonce x H. unfold aes_ctr, reference_cipher, Aes.ctr. rewrite H.
  eexists. reflexivity.
Qed.

Lemma empty_ring_never_forwards_witness :
  let self := fst (__init__ "msh/test/#" "filtered/test" false
                            (Some ["invalid-base64!@#"%string])) in
  let msgs := [sample_message (sample_packet 123456 (Encrypted ciphertext_default));
               sample_message (sample_packet 123456 (Decoded sample_data))] in
  published (run self mock_client initial_world msgs) = [] /\
  forwarded (stats (run self mock_client initial_world msgs)) = 0.
Proof.
  cbv zeta.
  destruct (empty_ring_never_forwards
              (fst (__init__ "msh/test/#" "filtered/test" false
                             (Some ["invalid-base64!@#"%string])))
              mock_client
              [sample_message (sample_packet 123456 (Encrypted ciphertext_default));
               sample_message (sample_packet 123456 (Decoded sample_data))]
              initial_world) as (H1 & H2 & _).
  - vm_compute. reflexivity.
  - split; [exact H1 | exact H2].
Defined.

(** A key of three bytes, "AAAA" in base64. *)
Lemma key_size_on_channels_witness :
  b64decode "AAAA" = Ok [x00; x00; x00] /\
  rejected (sample_packet 123456 (Encrypted ciphertext_default)) "LongFast" [x00; x00; x00] /\
  Aes.valid_key_size (List.length (effective_key [x00; x00; x00] "OtherChannel")) = true.
Proof.
  split; [vm_compute; reflexivity|]. split.
  - apply (proj1 (key_size_on_channels [x00; x00; x00] "LongFast"
                    aes_ctr_reference_key_size sha256_digest_size)).
    + reflexivity.
    + right; reflexivity.
  - apply (proj2 (key_size_on_channels [x00; x00; x00] "OtherChannel"
                    aes_ctr_reference_key_size sha256_digest_size)); discriminate.
Defined.

(** ** The summary *)

Section SummaryProperties.

Context {hashlib : Hashlib} {cipher : AesCtr} {protobuf : Protobuf}.

Lemma on_message_decrypted_mono (self : Filter) (client : Client) (w : World) (msg : Msg.t) :
  decrypted (stats w) <= decrypted (stats (on_message self client w msg)).
Proof.
  unfold on_message.
  pose proof (on_message_try_outcome self client w msg) as H.
  remember (on_message_try self client w msg) as r eqn:Er. clear Er.
  destruct H as [e He | envelope d Hparse Hp | envelope st Hparse Hnd Hst
                 | envelope data Hparse Hdec Hb | envelope data b Hparse Hdec Hb Hbit
                 | envelope data b Hparse Hdec Hb Hbit Hpub
                 | envelope data b e Hparse Hdec Hb Hbit Hpub];
    try (destruct Hst as [-> | [-> _]]); simpl; lia.
Qed.

Lemma run_decrypted_mono (self : Filter) (client : Client) (msgs : list Msg.t) (w : World) :
  decrypted (stats w) <= decrypted (stats (run self client w msgs)).
Proof.
  unfold run. revert w. induction msgs as [|msg msgs IH]; intros w; [simpl; lia|].
  cbn [fold_left]. specialize (IH (on_message self client w msg)).
  pose proof (on_message_decrypted_mono self client w msg). lia.
Qed.

(** X17: the summary after a run from the counters of [__init__].
    Before any message [_print_stats] logs nothing (and divides by nothing).
    After some messages, its total is the number of messages; its "Rejected"
    figure, [total - forwarded], is at least the sum of the three rejection
    reasons it lists, the difference being the messages dropped on an
    exception; and the two decryption lines are left out exactly when no
    packet was decrypted, whether or not decryptions failed. *)
Theorem print_stats_after_run (self : Filter) (client : Client) (msgs : list Msg.t) :
  let st := stats (run self client initial_world msgs) in
  (msgs = [] -> _print_stats st = None) /\
  (msgs <> [] ->
   exists s,
     _print_stats st = Some s /\
     summary_total s = Z.of_nat (List.length msgs) /\
     summary_rejected s = summary_total s - summary_forwarded s /\
     summary_encrypted s + summary_no_bitfield s + summary_bitfield_disabled s
     <= summary_rejected s /\
     (summary_decryption s = None <-> decrypted st = 0) /\
     (summary_decryption s <> None ->
      summary_decryption s = Some (decrypted st, decryption_failed st))).
Proof.
  cbv zeta. split.
  - intros ->. reflexivity.
  - intros Hne.
    destruct (run_counters self client msgs initial_world) as [Ht Ho].
    pose proof (run_decrypted_mono self client msgs initial_world) as Hd.
    change (total (stats initial_world)) with 0 in Ht.
    change (outcomes (stats initial_world)) with 0 in Ho.
    change (decrypted (stats initial_world)) with 0 in Hd.
    assert (Hlen : 0 < Z.of_nat (List.length msgs)) by (destruct msgs; [contradiction|simpl; lia]).
    unfold _print_stats.
    destruct (Z.eqb_spec (total (stats (run self client initial_world msgs))) 0) as [E|E];
      [lia|].
    eexists. split; [reflexivity|]. simpl.
    split; [lia|]. split; [reflexivity|]. split; [unfold outcomes in Ho; lia|].
    destruct (Z.ltb_spec 0 (decrypted (stats (run self client initial_world msgs)))).
    + split; [split; [discriminate | lia] | reflexivity].
    + split; [split; [lia | reflexivity] | intros H0; contradiction].
Qed.

End SummaryProperties.

Lemma print_stats_after_run_witness :
  let msgs := [sample_message (sample_packet 123456 (Encrypted ciphertext_custom));
               malformed_message] in
  _print_stats (stats (run (sample_filter default_ring) mock_client initial_world msgs))
  = Some (mkSummary 2 0 2 None 1 0 0).
Proof.
  cbv zeta.
  destruct (proj2 (print_stats_after_run
                     (sample_filter default_ring) mock_client
                     [sample_message (sample_packet 123456 (Encrypted ciphertext_custom));
                      malformed_message]))
    as (s & Hs & _).
  - discriminate.
  - rewrite Hs. vm_compute in Hs. injection Hs as <-. reflexivity.
Defined.

(** ** More on the keys and the loop *)

Section KeyProperties.

Context {hashlib : Hashlib} {cipher : AesCtr} {protobuf : Protobuf}.

(** X18: [_derive_key] by itself: for the empty channel name it returns
    the base key as it is, of whatever length; for every other name, the
    reserved "LongFast" included, it returns the SHA-256 digest, 32 bytes
    long, of the base key followed by the name.  Only the guard of the loop
    keeps "LongFast" from being hashed. *)
Theorem derive_key_spec (base_key : bytes) (channel_name : string) :
  Hashlib_spec hashlib ->
  _derive_key base_key "" = base_key /\
  _derive_key base_key "LongFast" = sha256 (base_key ++ encode_utf8 "LongFast") /\
  (channel_name <> ""%string ->
   _derive_key base_key channel_name = sha256 (base_key ++ encode_utf8 channel_name) /\
   List.length (_derive_key base_key channel_name) = 32%nat) /\
  effective_key base_key "LongFast" = base_key.
Proof.
  intros Hsize. split; [reflexivity|]. split; [reflexivity|]. split; [|reflexivity].
  intros Hne. rewrite (derive_key_nonempty _ _ Hne). split; [reflexivity | apply Hsize].
Qed.

Lemma accepted_functional (packet : MeshPacket) (channel_name : string) (base_key : bytes)
    (d d' : Data) :
  accepted packet channel_name base_key d -> accepted packet channel_name base_key d' ->
  d = d'.
Proof.
  intros H H'. apply trial_accepted in H, H'. congruence.
Qed.

(** X19: the order of the ring decides the outcome only between keys
    that are both accepted with different results: when all the entries that
    are accepted on a packet recover the same [Data] (at most one key fits,
    say), every reordering of the ring gives the same counters, the same
    packet and the same return value. *)
Theorem try_keys_permutation (ring ring' : list (string * bytes)) (st : Stats)
    (packet : MeshPacket) (channel_name : string) :
  Permutation ring ring' ->
  (forall n k d n' k' d',
      In (n, k) ring -> In (n', k') ring ->
      accepted packet channel_name k d -> accepted packet channel_name k' d' -> d = d') ->
  try_keys ring st packet channel_name = try_keys ring' st packet channel_name.
Proof.
  intros Hperm Hagree.
  destruct (try_keys_outcome ring st packet channel_name)
    as [(pre & n & k & post & d & Hr & _ & Hacc & ->) | [Hall ->]];
    destruct (try_keys_outcome ring' st packet channel_name)
      as [(pre' & n' & k' & post' & d' & Hr' & _ & Hacc' & ->) | [Hall' ->]].
  - assert (Hin : In (n, k) ring) by (rewrite Hr; apply in_or_app; right; left; reflexivity).
    assert (Hin' : In (n', k') ring).
    { apply (Permutation_in _ (Permutation_sym Hperm)).
      rewrite Hr'. apply in_or_app; right; left; reflexivity. }
    rewrite (Hagree _ _ _ _ _ _ Hin Hin' Hacc Hacc'). reflexivity.
  - exfalso. refine (Hall' n k _ d Hacc).
    apply (Permutation_in _ Hperm). rewrite Hr. apply in_or_app; right; left; reflexivity.
  - exfalso. refine (Hall n' k' _ d' Hacc').
    apply (Permutation_in _ (Permutation_sym Hperm)).
    rewrite Hr'. apply in_or_app; right; left; reflexivity.
  - reflexivity.
Qed.

(** X20: decryption is one way.  After a call of [_decrypt_packet] that
    returned [True], a second call on the resulting packet, with any ring
    and channel, returns [False] and changes neither the packet nor any
    counter: a decoded packet is never decrypted again nor counted as a
    failure. *)
Theorem decrypt_packet_once (self self' : Filter) (st : Stats) (packet : MeshPacket)
    (channel_name channel_name' : string) :
  snd (_decrypt_packet self st packet channel_name) = true ->
  let st1 := fst (fst (_decrypt_packet self st packet channel_name)) in
  let packet1 := snd (fst (_decrypt_packet self st packet channel_name)) in
  HasField_decoded packet1 = true /\
  _decrypt_packet self' st1 packet1 channel_name' = (st1, packet1, false).
Proof.
  unfold _decrypt_packet at 1 2 3.
  destruct (negb (HasField_encrypted packet) || _); [discriminate|].
  destruct (try_keys_outcome (keys self) st packet channel_name)
    as [(pre & n & k & post & d & _ & _ & _ & ->) | [_ ->]]; [|discriminate].
  intros _. cbv zeta. simpl. split; reflexivity.
Qed.

End KeyProperties.

Lemma derive_key_spec_witness :
  _derive_key DEFAULT_KEY "OtherChannel"
  = sha256 (DEFAULT_KEY ++ encode_utf8 "OtherChannel") /\
  List.length (_derive_key DEFAULT_KEY "OtherChannel") = 32%nat.
Proof.
  apply (proj1 (proj2 (proj2 (derive_key_spec DEFAULT_KEY "OtherChannel"
                                sha256_digest_size)))).
  discriminate.
Defined.

Lemma try_keys_permutation_witness :
  try_keys two_key_ring initial_stats
           (sample_packet 123456 (Encrypted ciphertext_custom)) "LongFast"
  = try_keys [("custom-0"%string, CUSTOM_KEY); ("default"%string, DEFAULT_KEY)]
             initial_stats (sample_packet 123456 (Encrypted ciphertext_custom)) "LongFast".
Proof.
  apply try_keys_permutation.
  - apply perm_swap.
  - intros n k d n' k' d' Hin Hin' Hacc Hacc'.
    assert (Hd : forall m key e, In (m, key) two_key_ring ->
                 accepted (sample_packet 123456 (Encrypted ciphertext_custom))
                          "LongFast" key e -> e = sample_data).
    { intros m key e [E|[E|[]]] H; injection E as <- <-; apply trial_accepted in H;
        vm_compute in H; [discriminate H | injection H as <-; reflexivity]. }
    rewrite (Hd _ _ _ Hin Hacc), (Hd _ _ _ Hin' Hacc'). reflexivity.
Defined.

Lemma decrypt_packet_once_witness :
  _decrypt_packet (sample_filter two_key_ring) (mkStats 0 0 0 0 0 1 0)
                  (sample_packet 123456 (Decoded sample_data)) "LongFast"
  = (mkStats 0 0 0 0 0 1 0, sample_packet 123456 (Decoded sample_data), false).
Proof.
  assert (H0 : snd (_decrypt_packet (sample_filter two_key_ring) initial_stats
                      (sample_packet 123456 (Encrypted ciphertext_custom)) "LongFast")
               = true) by (vm_compute; reflexivity).
  pose proof (proj2 (decrypt_packet_once
                       (sample_filter two_key_ring) (sample_filter two_key_ring)
                       initial_stats
                       (sample_packet 123456 (Encrypted ciphertext_custom))
                       "LongFast" "LongFast" H0)) as H.
  vm_compute in H. vm_compute. exact H.
Defined.
